(** * Sahara: CDH plugin utilities and periodic reconciliation tasks

    A shallow embedding of

      - [sahara/plugins/cdh/cloudera_utils.py]: the [cloudera_cmd] decorator
        and the [ClouderaUtils] methods [delete_instances],
        [decommission_nodes], [get_service_by_role] and [await_agents];
      - [sahara/service/periodic.py]: the three periodic tasks
        [update_job_statuses], [terminate_unneeded_clusters] and
        [check_for_zombie_proxy_users].

    Python code that talks to a collaborator (the Cloudera Manager client,
    the conductor, [ops], [trusts], the proxy-user helpers) is embedded as
    a computation over an explicit world: the calls issued are appended to
    a trace, and what a call answers is read from an environment record.
    A Python exception is a [Raise] result; the world reached so far is
    kept, as it is when an exception unwinds a Python frame.

    A collaborator call is given a failing answer where the code handles
    the failure or a property below is about it ([remove_host],
    [delete_host], [delete_role], [ops.terminate_cluster],
    [job_manager.update_job_statuses]); the other calls (inventory and
    conductor reads, [cluster_update], [proxy_user_delete]) answer
    normally.  Logging is left out. *)

From Stdlib Require Import ZArith QArith Lia.
From stdpp Require Import base list strings gmap.

#[local] Set Warnings "-register-all".

(** ** Python exceptions and effectful computations *)

Module Py.

(** The exception classes the two modules raise or let through. *)
Inductive exn : Type :=
| HadoopProvisionError (message : string)
| ValueError (message : string)
| KeyError (key : string)
| IndexError
| RemoteError (message : string).

Inductive result (A : Type) : Type :=
| Ok (a : A)
| Raise (e : exn).
Arguments Ok {A} a.
Arguments Raise {A} e.

(** A computation over a world [W]: the final world is returned on
    both outcomes. *)
Definition M (W A : Type) : Type := W → W * result A.

Definition ret {W A} (a : A) : M W A := λ w, (w, Ok a).

Definition raise {W A} (e : exn) : M W A := λ w, (w, Raise e).

Definition bind {W A B} (c : M W A) (k : A → M W B) : M W B :=
  λ w, match c w with
       | (w', Ok a) => k a w'
       | (w', Raise e) => (w', Raise e)
       end.

(** [try: c  except Exception: h] with a handler that returns. *)
Definition try_except {W} (c : M W unit) (h : exn → M W unit) : M W unit :=
  λ w, match c w with
       | (w', Ok a) => (w', Ok a)
       | (w', Raise e) => h e w'
       end.

(** [lift_result r]: a collaborator's answer, returned or raised. *)
Definition lift_result {W A} (r : result A) : M W A := λ w, (w, r).

(** [for x in xs: body x] *)
Fixpoint for_each {W A} (xs : list A) (body : A → M W unit) : M W unit :=
  match xs with
  | [] => ret tt
  | x :: xs' => bind (body x) (λ _, for_each xs' body)
  end.

(** Python's [x in l] on a list of strings. *)
Definition str_in (x : string) (l : list string) : bool :=
  bool_decide (x ∈ l).

(** Python's [s[n:]]. *)
Fixpoint str_from (n : nat) (s : string) : string :=
  match n, s with
  | O, _ => s
  | S n', String _ s' => str_from n' s'
  | S _, EmptyString => EmptyString
  end.

(** Python's [s.startswith(p)]. *)
Definition startswith (s p : string) : bool := String.prefix p s.

End Py.
Import Py.

Declare Scope py_scope.
Delimit Scope py_scope with py.
Notation "'do' x <~ c 'in' k" := (bind c (λ x, k))
  (at level 10, x name, c at level 100, k at level 200, only parsing)
  : py_scope.
#[local] Open Scope py_scope.

(** ** The records both modules read *)

(** A Sahara cluster.  [updated_at] is kept as the instant the ISO 8601
    string denotes, in microseconds of naive UTC (what
    [normalize_time (parse_isotime _)] yields); [manager_ip] is
    [pu.get_manager(cluster).management_ip]. *)
Record Cluster : Type := mkCluster {
  cluster_id : string;
  cluster_name : string;
  cluster_status : string;
  is_transient : bool;
  updated_at : Z;
  manager_ip : string
}.

Record NodeGroup : Type := mkNodeGroup {
  node_processes : list string;
  ng_cluster : Cluster
}.

(** [fqdn] is the value of the method [instance.fqdn()]. *)
Record Instance : Type := mkInstance {
  instance_name : string;
  fqdn : string;
  node_group : NodeGroup
}.

(** [timeutils.delta_seconds before after], on instants in microseconds.
    The float of the source is kept exact. *)
Definition delta_seconds (before after : Z) : Q :=
  Qmake (after - before) 1000000.

(** [x < n] for a number of seconds [x] and an integer [n]. *)
Definition seconds_lt (x : Q) (n : Z) : bool :=
  negb (Qle_bool (inject_Z n) x).

(** ** [sahara/plugins/cdh/cloudera_utils.py] *)

Module ClouderaUtils.

(** A cm_api command as [wait()] returns it. *)
Inductive ApiCommand : Type := mkApiCommand {
  cmd_id : Z;
  success : bool;
  children : option (list ApiCommand);
  resultMessage : string
}.

Record ApiHost : Type := mkApiHost {
  hostId : string;
  hostname : string
}.

(** [api_client.ApiResource(host, username=, password=, version=)] *)
Record ApiResource : Type := mkApiResource {
  server_host : string;
  username : string;
  password : string;
  version : Z
}.

(** [api.get_cluster(name)] *)
Record ApiCluster : Type := mkApiCluster {
  cm_resource : ApiResource;
  cm_name : string
}.

(** [cm_cluster.get_service(name)] *)
Record ApiService : Type := mkApiService {
  svc_cluster : ApiCluster;
  svc_name : string
}.

Definition CM_DEFAULT_USERNAME := "admin".
Definition CM_DEFAULT_PASSWD := "admin".
Definition CM_API_VERSION : Z := 6.

Definition HDFS_SERVICE_NAME := "hdfs01".
Definition YARN_SERVICE_NAME := "yarn01".
Definition OOZIE_SERVICE_NAME := "oozie01".
Definition HIVE_SERVICE_NAME := "hive01".
Definition HUE_SERVICE_NAME := "hue01".
Definition SPARK_SERVICE_NAME := "spark_on_yarn01".
Definition ZOOKEEPER_SERVICE_NAME := "zookeeper01".
Definition HBASE_SERVICE_NAME := "hbase01".

(** Calls issued to Cloudera Manager, and the sleeps between them. *)
Inductive event : Type :=
| EvWait (cmd : Z)
| EvGetAllHosts
| EvRemoveHost (cluster : string) (host : string)
| EvDeleteHost (host : string)
| EvDecommission (service : ApiService) (role_names : list string)
| EvDeleteRole (service : ApiService) (role_name : string)
| EvSleep (seconds : Z).

(** The world of a call: the clock (microseconds) and the calls made. *)
Record world : Type := mkWorld {
  clock : Z;
  trace : list event
}.

(** What Cloudera Manager answers.  The inventory depends on the
    instant of the request, and a request takes [mgr_latency] to
    answer. *)
Record Manager : Type := mkManager {
  mgr_hosts : Z → list ApiHost;
  mgr_latency : Z → Z;
  mgr_remove_host : string → result unit;
  mgr_delete_host : string → result unit;
  mgr_decommission : ApiService → list string → ApiCommand;
  mgr_delete_role : ApiService → string → result unit
}.

Definition emit (e : event) : M world unit :=
  λ w, (mkWorld (clock w) (trace w ++ [e]), Ok tt).

Definition advance (d : Z) : M world unit :=
  λ w, (mkWorld (clock w + d) (trace w), Ok tt).

Definition utcnow : M world Z := λ w, (w, Ok (clock w)).

(** [cmd.wait()] *)
Definition wait (cmd : ApiCommand) : M world ApiCommand :=
  do _ <~ emit (EvWait (cmd_id cmd)) in ret cmd.

(** [for c in result.children: if not c.success: raise ...] *)
Fixpoint check_children (cs : list ApiCommand) : M world unit :=
  match cs with
  | [] => ret tt
  | c :: cs' =>
      if negb (success c)
      then raise (HadoopProvisionError (resultMessage c))
      else check_children cs'
  end.

(** The body of the loop of [cloudera_cmd]'s wrapper. *)
Definition wait_and_check (cmd : ApiCommand) : M world unit :=
  do result <~ wait cmd in
  if negb (success result) then
    match children result with
    | Some cs => check_children cs
    | None => raise (HadoopProvisionError (resultMessage result))
    end
  else ret tt.

(** [cloudera_cmd(f)]'s wrapper, on the commands [f] yields. *)
Definition cloudera_cmd (cmds : list ApiCommand) : M world unit :=
  for_each cmds wait_and_check.

(** *** The Cloudera Manager client *)

Definition get_api_client (cluster : Cluster) : ApiResource :=
  mkApiResource (manager_ip cluster)
                CM_DEFAULT_USERNAME CM_DEFAULT_PASSWD CM_API_VERSION.

Definition get_cloudera_cluster (cluster : Cluster) : ApiCluster :=
  mkApiCluster (get_api_client cluster) (cluster_name cluster).

Definition get_service (cm_cluster : ApiCluster) (name : string)
  : ApiService :=
  mkApiService cm_cluster name.

(** [api.get_all_hosts(view='full')]: the inventory as of the request;
    the answer arrives [mgr_latency] later. *)
Definition get_all_hosts (mgr : Manager) : M world (list ApiHost) :=
  λ w, (mkWorld (clock w + mgr_latency mgr (clock w))
                (trace w ++ [EvGetAllHosts]),
        Ok (mgr_hosts mgr (clock w))).

Definition remove_host (mgr : Manager) (cm_cluster : ApiCluster)
    (host : string) : M world unit :=
  do _ <~ emit (EvRemoveHost (cm_name cm_cluster) host) in
  lift_result (mgr_remove_host mgr host).

Definition delete_host (mgr : Manager) (host : string) : M world unit :=
  do _ <~ emit (EvDeleteHost host) in
  lift_result (mgr_delete_host mgr host).

Definition decommission (mgr : Manager) (service : ApiService)
    (role_names : list string) : M world ApiCommand :=
  do _ <~ emit (EvDecommission service role_names) in
  ret (mgr_decommission mgr service role_names).

Definition delete_role (mgr : Manager) (service : ApiService)
    (role_name : string) : M world unit :=
  do _ <~ emit (EvDeleteRole service role_name) in
  lift_result (mgr_delete_role mgr service role_name).

(** [context.sleep(seconds)] *)
Definition sleep (seconds : Z) : M world unit :=
  λ w, (mkWorld (clock w + seconds * 1000000)
                (trace w ++ [EvSleep seconds]),
        Ok tt).

(** *** [ClouderaUtils] methods *)

Definition get_service_by_role (process : string)
    (cluster : option Cluster) (instance : option Instance)
  : result ApiService :=
  let cm_cluster :=
    match cluster with
    | Some c => Ok (get_cloudera_cluster c)
    | None =>
        match instance with
        | Some i => Ok (get_cloudera_cluster (ng_cluster (node_group i)))
        | None => Raise (ValueError "'cluster' or 'instance' argument missed")
        end
    end in
  match cm_cluster with
  | Raise e => Raise e
  | Ok cm_cluster =>
      if str_in process ["NAMENODE"; "DATANODE"; "SECONDARYNAMENODE"] then
        Ok (get_service cm_cluster HDFS_SERVICE_NAME)
      else if str_in process ["RESOURCEMANAGER"; "NODEMANAGER"; "JOBHISTORY"]
      then Ok (get_service cm_cluster YARN_SERVICE_NAME)
      else if str_in process ["OOZIE_SERVER"] then
        Ok (get_service cm_cluster OOZIE_SERVICE_NAME)
      else if str_in process ["HIVESERVER2"; "HIVEMETASTORE"; "WEBHCAT"] then
        Ok (get_service cm_cluster HIVE_SERVICE_NAME)
      else if str_in process ["HUE_SERVER"] then
        Ok (get_service cm_cluster HUE_SERVICE_NAME)
      else if str_in process ["SPARK_YARN_HISTORY_SERVER"] then
        Ok (get_service cm_cluster SPARK_SERVICE_NAME)
      else if str_in process ["SERVER"] then
        Ok (get_service cm_cluster ZOOKEEPER_SERVICE_NAME)
      else if str_in process ["MASTER"; "REGIONSERVER"] then
        Ok (get_service cm_cluster HBASE_SERVICE_NAME)
      else
        Raise (ValueError
                 ("Process " +:+ process +:+ " is not supported by CDH plugin"))
  end.

(** The body of the loop of [delete_instances]. *)
Definition delete_instance_host (mgr : Manager) (cm_cluster : ApiCluster)
    (hostsnames_to_deleted : list string) (host : ApiHost) : M world unit :=
  if str_in (hostname host) hostsnames_to_deleted then
    do _ <~ remove_host mgr cm_cluster (hostId host) in
    delete_host mgr (hostId host)
  else ret tt.

Definition delete_instances (mgr : Manager) (cluster : Cluster)
    (instances : list Instance) : M world unit :=
  let cm_cluster := get_cloudera_cluster cluster in
  do hosts <~ get_all_hosts mgr in
  let hostsnames_to_deleted := map fqdn instances in
  for_each hosts (delete_instance_host mgr cm_cluster hostsnames_to_deleted).

Definition decommission_nodes (mgr : Manager) (cluster : Cluster)
    (process : string) (role_names : list string) : M world unit :=
  do service <~ lift_result (get_service_by_role process (Some cluster) None) in
  do cmd <~ decommission mgr service role_names in
  do _ <~ wait cmd in
  for_each role_names (delete_role mgr service).

(** The [for hostname in hostnames] loop of [await_agents]: the value
    of [is_ok] when the loop is left. *)
Fixpoint is_ok (hostnames hostnames_to_manager : list string) : bool :=
  match hostnames with
  | [] => true
  | hostname :: rest =>
      if negb (str_in hostname hostnames_to_manager) then false
      else is_ok rest hostnames_to_manager
  end.

Definition timeout : Z := 300.

Definition agents_failed : exn :=
  HadoopProvisionError
    "Cloudera agents failed to connect to Cloudera Manager".

(** The [while ... else] loop of [await_agents].  [None] is the loop
    still running when [fuel] iterations are spent. *)
Fixpoint await_loop (fuel : nat) (mgr : Manager) (instances : list Instance)
    (s_time : Z) (w : world) : option (world * result unit) :=
  match fuel with
  | O => None
  | S fuel' =>
      if seconds_lt (delta_seconds s_time (clock w)) timeout then
        let hostnames := map fqdn instances in
        match get_all_hosts mgr w with
        | (w1, Raise e) => Some (w1, Raise e)
        | (w1, Ok hosts) =>
            let hostnames_to_manager := map hostname hosts in
            if negb (is_ok hostnames hostnames_to_manager) then
              match sleep 5 w1 with
              | (w2, Raise e) => Some (w2, Raise e)
              | (w2, Ok _) => await_loop fuel' mgr instances s_time w2
              end
            else Some (w1, Ok tt)
        end
      else Some (w, Raise agents_failed)
  end.

Definition await_agents (fuel : nat) (mgr : Manager)
    (instances : list Instance) (w : world)
  : option (world * result unit) :=
  match instances with
  | [] => Some (w, Raise IndexError)
  | first :: _ =>
      let api := get_api_client (ng_cluster (node_group first)) in
      let s_time := clock w in
      await_loop fuel mgr instances s_time w
  end.

End ClouderaUtils.

(** ** [sahara/service/periodic.py] *)

Module Periodic.

(** The options of [CONF] the module reads. *)
Record Conf : Type := mkConf {
  periodic_enable : bool;
  periodic_fuzzy_delay : Z;
  periodic_interval_max : Z;
  min_transient_cluster_active_time : Z;
  use_identity_api_v3 : bool;
  use_domain_for_proxy_users : bool
}.

(** [context.get_admin_context()] *)
Inductive Context : Type := AdminContext.

Definition get_admin_context : Context := AdminContext.

(** A job execution: [info] is the dict read as [je.info['status']]. *)
Record JobExecution : Type := mkJobExecution {
  je_cluster_id : string;
  end_time : option Z;
  info : gmap string string
}.

(** A proxy-domain user as [proxy_domain_users_list()] returns it. *)
Record User : Type := mkUser {
  user_id : string;
  user_name : string
}.

(** Modelled from the spec: the conductor's tables, which this module
    reads through [cluster_get_all], [job_execution_count] and
    [job_execution_get]; job executions are keyed by their id. *)
Record Conductor : Type := mkConductor {
  clusters : list Cluster;
  job_executions : gmap string JobExecution
}.

(** Modelled from the spec: [conductor.cluster_get_all(ctx, status=s)],
    the clusters whose status is [s]. *)
Definition cluster_get_all (db : Conductor) (status : string)
  : list Cluster :=
  filter (λ c, cluster_status c = status) (clusters db).

(** Modelled from the spec:
    [conductor.job_execution_count(ctx, end_time=e, cluster_id=c)],
    how many job executions of cluster [c] have end time [e]. *)
Definition job_execution_count (db : Conductor) (e : option Z)
    (c : string) : nat :=
  size (filter (λ kv : string * JobExecution,
                  end_time kv.2 = e ∧ je_cluster_id kv.2 = c)
               (job_executions db)).

(** Modelled from the spec: [conductor.job_execution_get(ctx, je_id)],
    [None] when there is no such job execution. *)
Definition job_execution_get (db : Conductor) (je_id : string)
  : option JobExecution :=
  job_executions db !! je_id.

(** Calls issued to the collaborators. *)
Inductive event : Type :=
| EvUpdateJobStatuses (ctx : option Context)
| EvUseOsAdminAuthToken (cluster : string)
| EvTerminateCluster (cluster : string)
| EvClusterUpdate (cluster : string) (status : string)
| EvProxyUserDelete (user : string).

(** The world of a task run: the thread's current context, the clock
    (microseconds) and the calls made. *)
Record world : Type := mkWorld {
  current_ctx : option Context;
  clock : Z;
  calls : list event
}.

(** What the collaborators hold and answer. *)
Record Collaborators : Type := mkCollaborators {
  conductor : Conductor;
  job_manager_update_job_statuses : result unit;
  ops_terminate_cluster : string → result unit;
  proxy_domain_users_list : list User
}.

Definition emit (e : event) : M world unit :=
  λ w, (mkWorld (current_ctx w) (clock w) (calls w ++ [e]), Ok tt).

(** [context.set_ctx(ctx)] *)
Definition set_ctx (ctx : option Context) : M world unit :=
  λ w, (mkWorld ctx (clock w) (calls w), Ok tt).

(** [timeutils.utcnow()] *)
Definition utcnow : M world Z := λ w, (w, Ok (clock w)).

(** [job_manager.update_job_statuses()], run under the current
    context. *)
Definition job_manager_call (env : Collaborators) : M world unit :=
  λ w, (mkWorld (current_ctx w) (clock w)
                (calls w ++ [EvUpdateJobStatuses (current_ctx w)]),
        job_manager_update_job_statuses env).

Definition use_os_admin_auth_token (cluster : Cluster) : M world unit :=
  emit (EvUseOsAdminAuthToken (cluster_id cluster)).

Definition terminate_cluster (env : Collaborators) (id : string)
  : M world unit :=
  do _ <~ emit (EvTerminateCluster id) in
  lift_result (ops_terminate_cluster env id).

(** [conductor.cluster_update(ctx, cluster, {'status': status})] *)
Definition cluster_update (cluster : Cluster) (status : string)
  : M world unit :=
  emit (EvClusterUpdate (cluster_id cluster) status).

Definition proxy_user_delete (id : string) : M world unit :=
  emit (EvProxyUserDelete id).

(** [d[k]] on a dict *)
Definition dict_get {W} (d : gmap string string) (k : string)
  : M W string :=
  match d !! k with
  | Some v => ret v
  | None => raise (KeyError k)
  end.

Definition zombie_task_spacing (conf : Conf) : Z :=
  if use_domain_for_proxy_users conf then 300 else -1.

Definition update_job_statuses (env : Collaborators) : M world unit :=
  let ctx := get_admin_context in
  do _ <~ set_ctx (Some ctx) in
  do _ <~ job_manager_call env in
  set_ctx None.

(** The body of the loop of [terminate_unneeded_clusters]. *)
Definition terminate_unneeded_cluster (conf : Conf) (env : Collaborators)
    (cluster : Cluster) : M world unit :=
  if negb (is_transient cluster) then ret tt
  else
    let jc := job_execution_count (conductor env) None
                                  (cluster_id cluster) in
    if (0 <? jc)%nat then ret tt
    else
      let cluster_updated_at := updated_at cluster in
      do current_time <~ utcnow in
      let spacing := delta_seconds cluster_updated_at current_time in
      if seconds_lt spacing (min_transient_cluster_active_time conf)
      then ret tt
      else if use_identity_api_v3 conf then
        do _ <~ use_os_admin_auth_token cluster in
        try_except (terminate_cluster env (cluster_id cluster))
                   (λ e, ret tt)
      else if negb (String.eqb (cluster_status cluster)
                               "AwaitingTermination")
      then cluster_update cluster "AwaitingTermination"
      else ret tt.

Definition terminate_unneeded_clusters (conf : Conf)
    (env : Collaborators) : M world unit :=
  let ctx := get_admin_context in
  do _ <~ set_ctx (Some ctx) in
  do _ <~ for_each (cluster_get_all (conductor env) "Active")
                   (terminate_unneeded_cluster conf env) in
  set_ctx None.

Section ZombieProxyUsers.

(** [edp.JOB_STATUSES_TERMINATED], defined outside these sources. *)
Variable JOB_STATUSES_TERMINATED : list string.

(** The body of the loop of [check_for_zombie_proxy_users]. *)
Definition check_zombie_proxy_user (env : Collaborators) (user : User)
  : M world unit :=
  if startswith (user_name user) "job_" then
    let je_id := str_from 4 (user_name user) in
    let je := job_execution_get (conductor env) je_id in
    do zombie <~
      match je with
      | None => ret true
      | Some je =>
          do status <~ dict_get (info je) "status" in
          ret (str_in status JOB_STATUSES_TERMINATED)
      end in
    if zombie : bool then proxy_user_delete (user_id user) else ret tt
  else ret tt.

Definition check_for_zombie_proxy_users (env : Collaborators)
  : M world unit :=
  let ctx := get_admin_context in
  do _ <~ set_ctx (Some ctx) in
  do _ <~ for_each (proxy_domain_users_list env)
                   (check_zombie_proxy_user env) in
  set_ctx None.

End ZombieProxyUsers.

End Periodic.

(** ** [cloudera_utils.py]: the operations on roles, services and
    configuration *)

Module ClouderaOps.
Import ClouderaUtils.

(** [self.pu] and [self._get_configs], which the derived classes
    define.  A configuration is the dict handed to [update_config];
    the base class returns [None]. *)
Record PluginUtils : Type := mkPluginUtils {
  convert_role_showname : string → string;
  get_role_name : Instance → string → string;
  get_manager : Cluster → Instance;
  get_configs :
    string → option Cluster → NodeGroup → option (list (string * string))
}.

(** One entry of an [ApiServiceSetupInfo], as [add_role_info] adds it. *)
Record RoleInfo : Type := mkRoleInfo {
  role_name : string;
  role_type : string;
  role_host : string
}.

(** Requests to Cloudera Manager.  [Base] holds the calls of
    [ClouderaUtils.event]. *)
Inductive call : Type :=
| Base (e : event)
| ClusterStart (cm_cluster : ApiCluster)
| ClusterDeployClientConfig (cm_cluster : ApiCluster)
| MgmtRestart (api : ApiResource)
| ServiceStart (service : ApiService)
| ServiceStartRoles (service : ApiService) (role_names : list string)
| ServiceGetRolesByType (service : ApiService) (process : string)
| ServiceRefresh (service : ApiService) (role : string)
| ServiceDeployClientConfig (service : ApiService) (role : string)
| ServiceCreateRole (service : ApiService) (role process host : string)
| RoleUpdateConfig (service : ApiService) (role : string)
    (config : option (list (string * string)))
| CreateMgmtService (api : ApiResource) (setup_info : list RoleInfo)
| HostsStartRoles (api : ApiResource) (hostnames : list string).

(** The world of an operation: the clock and the requests made. *)
Record session : Type := mkSession {
  now : Z;
  history : list call
}.

(** What Cloudera Manager answers to the requests. *)
Record Endpoint : Type := mkEndpoint {
  ep_cluster_start : ApiCluster → ApiCommand;
  ep_cluster_deploy : ApiCluster → ApiCommand;
  ep_mgmt_restart : ApiResource → ApiCommand;
  ep_service_start : ApiService → ApiCommand;
  ep_start_roles : ApiService → list string → list ApiCommand;
  ep_roles_by_type : ApiService → string → list string;
  ep_refresh : ApiService → string → list ApiCommand;
  ep_deploy_client_config : ApiService → string → ApiCommand;
  ep_create_role : ApiService → string → string → string → result unit;
  ep_update_config :
    ApiService → string → option (list (string * string)) → result unit;
  ep_create_mgmt_service : ApiResource → list RoleInfo → result unit;
  ep_hosts_start_roles : ApiResource → list string → result unit
}.

(** A request that is answered with [a]. *)
Definition request {A} (c : call) (a : A) : M session A :=
  λ s, (mkSession (now s) (history s ++ [c]), Ok a).

(** A request that returns or raises [r]. *)
Definition attempt {A} (c : call) (r : result A) : M session A :=
  λ s, (mkSession (now s) (history s ++ [c]), r).

(** A computation of [ClouderaUtils] run within a session: the calls
    it makes are entered in the history in the order made. *)
Definition lift {A} (c : M world A) : M session A :=
  λ s, match c (mkWorld (now s) []) with
       | (w, r) => (mkSession (clock w) (history s ++ map Base (trace w)), r)
       end.

(** [yield cmd] in a generator decorated with [cloudera_cmd]: the
    wrapper's [for] loop runs its body on [cmd] before the generator is
    resumed, and the generator is not resumed once the body has raised. *)
Definition yield (cmd : ApiCommand) : M session unit :=
  lift (wait_and_check cmd).

Definition start_instances (ep : Endpoint) (cluster : Cluster)
  : M session unit :=
  let cm_cluster := get_cloudera_cluster cluster in
  do cmd <~ request (ClusterStart cm_cluster)
                    (ep_cluster_start ep cm_cluster) in
  yield cmd.

Definition refresh_nodes (ep : Endpoint) (cluster : Cluster)
    (process service_name : string) : M session unit :=
  let cm_cluster := get_cloudera_cluster cluster in
  let service := get_service cm_cluster service_name in
  do nds <~ request (ServiceGetRolesByType service process)
                    (ep_roles_by_type ep service process) in
  for_each nds
    (λ nd, do sts <~ request (ServiceRefresh service nd)
                             (ep_refresh ep service nd) in
           for_each sts yield).

Definition deploy_configs (ep : Endpoint) (cluster : Cluster)
  : M session unit :=
  let cm_cluster := get_cloudera_cluster cluster in
  do cmd <~ request (ClusterDeployClientConfig cm_cluster)
                    (ep_cluster_deploy ep cm_cluster) in
  yield cmd.

(** The body of the loop of [update_configs]. *)
Definition update_config_of (pu : PluginUtils) (ep : Endpoint)
    (instance : Instance) (process : string) : M session unit :=
  let process := convert_role_showname pu process in
  do service <~ lift_result
                  (get_service_by_role process None (Some instance)) in
  let role := get_role_name pu instance process in
  do cmd <~ request (ServiceDeployClientConfig service role)
                    (ep_deploy_client_config ep service role) in
  yield cmd.

Definition update_configs (pu : PluginUtils) (ep : Endpoint)
    (instance : Instance) : M session unit :=
  for_each (node_processes (node_group instance))
           (update_config_of pu ep instance).

Definition restart_mgmt_service (ep : Endpoint) (cluster : Cluster)
  : M session unit :=
  let api := get_api_client cluster in
  do cmd <~ request (MgmtRestart api) (ep_mgmt_restart ep api) in
  yield cmd.

Definition start_service (ep : Endpoint) (service : ApiService)
  : M session unit :=
  do cmd <~ request (ServiceStart service) (ep_service_start ep service) in
  yield cmd.

Definition start_roles (ep : Endpoint) (service : ApiService)
    (role_names : list string) : M session unit :=
  do roles <~ request (ServiceStartRoles service role_names)
                      (ep_start_roles ep service role_names) in
  for_each roles yield.

(** [setup_info.add_role_info(name, type, host)] *)
Definition add_role_info (setup_info : list RoleInfo)
    (name type host : string) : list RoleInfo :=
  setup_info ++ [mkRoleInfo name type host].

Definition create_mgmt_service (pu : PluginUtils) (ep : Endpoint)
    (cluster : Cluster) : M session unit :=
  let api := get_api_client cluster in
  let manager := get_manager pu cluster in
  let hostname := fqdn manager in
  let processes :=
    ["SERVICEMONITOR"; "HOSTMONITOR"; "EVENTSERVER"; "ALERTPUBLISHER"] in
  let setup_info :=
    fold_left (λ info proc,
                 add_role_info info (get_role_name pu manager proc)
                               proc hostname)
              processes [] in
  do _ <~ attempt (CreateMgmtService api setup_info)
                  (ep_create_mgmt_service ep api setup_info) in
  attempt (HostsStartRoles api [hostname])
          (ep_hosts_start_roles ep api [hostname]).

(** [_add_role] *)
Definition add_role (pu : PluginUtils) (ep : Endpoint) (instance : Instance)
    (process : string) (cluster : option Cluster) : M session unit :=
  if str_in process ["CLOUDERA_MANAGER"] then ret tt
  else
    let process := convert_role_showname pu process in
    do service <~ lift_result
                    (get_service_by_role process None (Some instance)) in
    let role := get_role_name pu instance process in
    do _ <~ attempt (ServiceCreateRole service role process (fqdn instance))
                    (ep_create_role ep service role process (fqdn instance)) in
    let config := get_configs pu process cluster (node_group instance) in
    attempt (RoleUpdateConfig service role config)
            (ep_update_config ep service role config).

Definition configure_instance (pu : PluginUtils) (ep : Endpoint)
    (instance : Instance) (cluster : option Cluster) : M session unit :=
  for_each (node_processes (node_group instance))
           (λ process, add_role pu ep instance process cluster).

Definition configure_instances (pu : PluginUtils) (ep : Endpoint)
    (instances : list Instance) (cluster : option Cluster) : M session unit :=
  for_each instances (λ inst, configure_instance pu ep inst cluster).

End ClouderaOps.

(** ** [periodic.py]: starting the scheduler *)

Module PeriodicSetup.
Import Periodic.

(** Python's [random.randint(a, b)]: an integer between [a] and [b],
    both included, picked by the random source [draw]; a [ValueError]
    when the range is empty. *)
Definition randint (draw a b : Z) : result Z :=
  if (b <? a)%Z then Raise (ValueError "empty range for randrange()")
  else Ok (a + draw `mod` (b - a + 1))%Z.

(** A method decorated with [periodic_task.periodic_task]. *)
Record PeriodicTask : Type := mkPeriodicTask {
  task_name : string;
  spacing : Z;
  run_immediately : bool
}.

(** The tasks of the object [_make_periodic_tasks] returns. *)
Definition make_periodic_tasks (conf : Conf) : list PeriodicTask :=
  [mkPeriodicTask "update_job_statuses" 45 true;
   mkPeriodicTask "terminate_unneeded_clusters" 90 false;
   mkPeriodicTask "check_for_zombie_proxy_users" (zombie_task_spacing conf)
                  false].

(** A timer added to the thread group by [add_dynamic_timer]. *)
Record Timer : Type := mkTimer {
  timer_tasks : list PeriodicTask;
  initial_delay : option Z;
  timer_interval_max : Z
}.

Definition add_dynamic_timer (pt : list PeriodicTask)
    (initial_delay : option Z) (periodic_interval_max : Z)
  : M (list Timer) unit :=
  λ tg, (tg ++ [mkTimer pt initial_delay periodic_interval_max], Ok tt).

(** [setup()], on the timers of the thread group. *)
Definition setup (conf : Conf) (draw : Z) : M (list Timer) unit :=
  if periodic_enable conf then
    do initial_delay <~
      (if negb (periodic_fuzzy_delay conf =? 0)%Z then
         do d <~ lift_result (randint draw 0 (periodic_fuzzy_delay conf)) in
         ret (Some d)
       else ret None) in
    let pt := make_periodic_tasks conf in
    add_dynamic_timer pt initial_delay (periodic_interval_max conf)
  else ret tt.

End PeriodicSetup.

(** * Properties *)

(** ** The effect layer *)

Lemma seconds_lt_spec (before after n : Z) :
  seconds_lt (delta_seconds before after) n = true
  ↔ (after - before < n * 1000000)%Z.
Proof.
  unfold seconds_lt, delta_seconds.
  rewrite negb_true_iff, <- not_true_iff_false, Qle_bool_iff.
  unfold Qle, inject_Z; simpl. lia.
Qed.

Lemma seconds_lt_false (before after n : Z) :
  seconds_lt (delta_seconds before after) n = false
  ↔ (n * 1000000 ≤ after - before)%Z.
Proof.
  rewrite <- not_true_iff_false, seconds_lt_spec. lia.
Qed.

Lemma for_each_cons {W A} (x : A) (xs : list A) (body : A → M W unit) w :
  for_each (x :: xs) body w =
  match body x w with
  | (w', Ok _) => for_each xs body w'
  | (w', Raise e) => (w', Raise e)
  end.
Proof. reflexivity. Qed.

Lemma for_each_app {W A} (xs ys : list A) (body : A → M W unit) w :
  for_each (xs ++ ys) body w =
  match for_each xs body w with
  | (w', Ok _) => for_each ys body w'
  | (w', Raise e) => (w', Raise e)
  end.
Proof.
  revert w; induction xs as [|x xs IH]; intros w; [reflexivity|].
  rewrite <- app_comm_cons, !for_each_cons.
  destruct (body x w) as [w' [[]|e]]; [apply IH | reflexivity].
Qed.

Lemma str_in_true (x : string) (l : list string) :
  str_in x l = true ↔ x ∈ l.
Proof. unfold str_in. apply bool_decide_eq_true. Qed.

Lemma str_in_false (x : string) (l : list string) :
  str_in x l = false ↔ x ∉ l.
Proof. unfold str_in. apply bool_decide_eq_false. Qed.

(** ** [cloudera_utils.py] *)

Module ClouderaUtilsProofs.
Import ClouderaUtils.

(** *** [cloudera_cmd] *)

(** The world after [cmd.wait()]. *)
Definition waited (cmd : ApiCommand) (w : world) : world :=
  mkWorld (clock w) (trace w ++ [EvWait (cmd_id cmd)]).

Lemma check_children_all_ok (cs : list ApiCommand) (w : world) :
  Forall (λ c, success c = true) cs → check_children cs w = (w, Ok tt).
Proof.
  induction 1 as [|c cs Hc _ IH]; simpl; [reflexivity|].
  rewrite Hc; simpl. exact IH.
Qed.

Lemma check_children_first_failed (ok later : list ApiCommand)
    (c : ApiCommand) (w : world) :
  Forall (λ x, success x = true) ok →
  success c = false →
  check_children (ok ++ c :: later) w
  = (w, Raise (HadoopProvisionError (resultMessage c))).
Proof.
  intros Hok Hc. induction Hok as [|x ok Hx _ IH]; simpl.
  - rewrite Hc; reflexivity.
  - rewrite Hx; simpl. exact IH.
Qed.

(** C3.  Every command the wrapper reaches is waited on, and then:
    when it succeeded, nothing is raised and the wrapper goes on with
    the commands that follow; when it failed and its children hold a
    failed child, a provisioning error with the message of the first
    failed child is raised at once; when it failed and [children] is
    [None], a provisioning error with its own message is raised at
    once. *)
Theorem cloudera_cmd_per_command (cmd : ApiCommand)
    (rest : list ApiCommand) (w : world) :
  (success cmd = true →
   cloudera_cmd (cmd :: rest) w = cloudera_cmd rest (waited cmd w))
  ∧ (∀ ok c later,
       success cmd = false →
       children cmd = Some (ok ++ c :: later) →
       Forall (λ x, success x = true) ok →
       success c = false →
       cloudera_cmd (cmd :: rest) w
       = (waited cmd w, Raise (HadoopProvisionError (resultMessage c))))
  ∧ (success cmd = false →
     children cmd = None →
     cloudera_cmd (cmd :: rest) w
     = (waited cmd w, Raise (HadoopProvisionError (resultMessage cmd)))).
Proof.
  unfold cloudera_cmd. rewrite for_each_cons.
  unfold wait_and_check, wait, bind, emit, ret; simpl.
  fold (waited cmd w).
  split; [|split].
  - intros ->; reflexivity.
  - intros ok c later -> -> Hok Hc; simpl.
    rewrite (check_children_first_failed ok later c _ Hok Hc). reflexivity.
  - intros -> ->; reflexivity.
Qed.

Definition ok_cmd : ApiCommand := mkApiCommand 1 true None "".
Definition child_ok : ApiCommand := mkApiCommand 21 true None "".
Definition child_bad : ApiCommand :=
  mkApiCommand 22 false None "Role failed to start".
Definition child_bad' : ApiCommand :=
  mkApiCommand 23 false None "Aborted".
Definition failed_with_children : ApiCommand :=
  mkApiCommand 2 false (Some [child_ok; child_bad; child_bad'])
               "Command Start failed".
Definition failed_alone : ApiCommand :=
  mkApiCommand 3 false None "Command Restart failed".
Definition w0 : world := mkWorld 0 [].

Lemma cloudera_cmd_per_command_witness :
  cloudera_cmd [ok_cmd; failed_with_children; ok_cmd] w0
  = (mkWorld 0 [EvWait 1; EvWait 2],
     Raise (HadoopProvisionError "Role failed to start"))
  ∧ cloudera_cmd [failed_alone; ok_cmd] w0
    = (mkWorld 0 [EvWait 3],
       Raise (HadoopProvisionError "Command Restart failed")).
Proof.
  split.
  - rewrite (proj1 (cloudera_cmd_per_command ok_cmd _ w0) eq_refl).
    apply (proj1 (proj2 (cloudera_cmd_per_command
                           failed_with_children [ok_cmd] (waited ok_cmd w0)))
             [child_ok] child_bad [child_bad']);
      [reflexivity | reflexivity | | reflexivity].
    repeat constructor.
  - apply (proj2 (proj2 (cloudera_cmd_per_command failed_alone [ok_cmd] w0)));
      reflexivity.
Defined.

(** A failed command whose [children] is a list without a failed child:
    the empty list, or children that all succeeded. *)
Definition failed_no_children : ApiCommand :=
  mkApiCommand 4 false (Some []) "Command Decommission failed".
Definition failed_children_ok : ApiCommand :=
  mkApiCommand 5 false (Some [child_ok]) "Command Deploy failed".

(** C2.  The wrapper returns normally on a failed command whose
    [children] is not [None] and holds no failed child: the failure is
    not raised, and the next command is waited on. *)
Theorem cloudera_cmd_swallows_failed_command :
  success failed_no_children = false
  ∧ cloudera_cmd [failed_no_children; ok_cmd] w0
    = (mkWorld 0 [EvWait 4; EvWait 1], Ok tt)
  ∧ success failed_children_ok = false
  ∧ cloudera_cmd [failed_children_ok] w0 = (mkWorld 0 [EvWait 5], Ok tt).
Proof. repeat split. Qed.

(** *** [get_service_by_role] *)

(** The table of the specification, process by process. *)
Definition service_table : list (string * string) :=
  [ ("NAMENODE", "hdfs01"); ("DATANODE", "hdfs01");
    ("SECONDARYNAMENODE", "hdfs01");
    ("RESOURCEMANAGER", "yarn01"); ("NODEMANAGER", "yarn01");
    ("JOBHISTORY", "yarn01");
    ("OOZIE_SERVER", "oozie01");
    ("HIVESERVER2", "hive01"); ("HIVEMETASTORE", "hive01");
    ("WEBHCAT", "hive01");
    ("HUE_SERVER", "hue01");
    ("SPARK_YARN_HISTORY_SERVER", "spark_on_yarn01");
    ("SERVER", "zookeeper01");
    ("MASTER", "hbase01"); ("REGIONSERVER", "hbase01") ].

Fixpoint table_lookup (process : string) (table : list (string * string))
  : option string :=
  match table with
  | [] => None
  | (p, service) :: table' =>
      if decide (p = process) then Some service
      else table_lookup process table'
  end.

Definition unsupported (process : string) : exn :=
  ValueError ("Process " +:+ process +:+ " is not supported by CDH plugin").

(** What the specification asks of the router on Cloudera cluster
    [cm_cluster]. *)
Definition route (cm_cluster : ApiCluster) (process : string)
  : result ApiService :=
  match table_lookup process service_table with
  | Some name => Ok (get_service cm_cluster name)
  | None => Raise (unsupported process)
  end.

Lemma table_lookup_None (process : string) (table : list (string * string)) :
  table_lookup process table = None ↔ process ∉ table.*1.
Proof.
  induction table as [|[p s] table IH]; simpl.
  - split; [intros _; apply not_elem_of_nil | reflexivity].
  - rewrite not_elem_of_cons. destruct (decide (p = process)) as [->|Hne].
    + split; [discriminate | intros [[] _]; reflexivity].
    + rewrite IH. split; [intros ?; split; [congruence|assumption] | tauto].
Qed.

Lemma table_lookup_service_table (process name : string) :
  (process, name) ∈ service_table →
  table_lookup process service_table = Some name.
Proof.
  unfold service_table. intros H.
  repeat match type of H with
    | _ ∈ _ :: _ => apply elem_of_cons in H as [[= -> ->]|H]; [reflexivity|]
    end.
  apply elem_of_nil in H; destruct H.
Qed.

(** The chain of conditionals is the table. *)
Lemma get_service_by_role_route (process : string) (cluster : Cluster)
    (instance : option Instance) :
  get_service_by_role process (Some cluster) instance
  = route (get_cloudera_cluster cluster) process.
Proof.
  unfold get_service_by_role, route, unsupported, str_in.
  generalize (get_cloudera_cluster cluster) as cm_cluster; intros cm_cluster.
  repeat case_bool_decide;
    repeat match goal with
      | H : _ ∈ _ :: _ |- _ => apply elem_of_cons in H as [->|H]
      | H : _ ∈ [] |- _ => apply elem_of_nil in H; destruct H
      end;
    try reflexivity.
  repeat match goal with
    | H : _ ∉ _ :: _ |- _ => apply not_elem_of_cons in H as [? H]
    end.
  simpl. repeat (case_decide; [congruence|]). reflexivity.
Qed.

(** [r] is the answer the table gives for [process] on [cm_cluster]:
    the tabled service, or the unsupported-process error. *)
Definition routed (process : string) (cm_cluster : ApiCluster)
    (r : result ApiService) : Prop :=
  (∀ name, (process, name) ∈ service_table →
           r = Ok (get_service cm_cluster name))
  ∧ (process ∉ service_table.*1 → r = Raise (unsupported process)).

Lemma route_routed (process : string) (cm_cluster : ApiCluster) :
  routed process cm_cluster (route cm_cluster process).
Proof.
  unfold route; split.
  - intros name H. rewrite (table_lookup_service_table _ _ H). reflexivity.
  - intros H. apply table_lookup_None in H. rewrite H. reflexivity.
Qed.

(** C6.  Given a cluster, or no cluster and an instance,
    [get_service_by_role] returns the service the table names for the
    process, on the Cloudera cluster of that cluster (of the instance's
    cluster), and raises the unsupported-process [ValueError] for every
    process outside the table. *)
Theorem get_service_by_role_table (process : string) :
  (∀ cluster instance,
     routed process (get_cloudera_cluster cluster)
            (get_service_by_role process (Some cluster) instance))
  ∧ (∀ instance,
       routed process
              (get_cloudera_cluster (ng_cluster (node_group instance)))
              (get_service_by_role process None (Some instance))).
Proof.
  split.
  - intros cluster instance. rewrite get_service_by_role_route.
    apply route_routed.
  - intros instance.
    change (get_service_by_role process None (Some instance))
      with (get_service_by_role process
              (Some (ng_cluster (node_group instance))) None).
    rewrite get_service_by_role_route. apply route_routed.
Qed.

Definition cluster0 : Cluster :=
  mkCluster "c-1" "cluster-1" "Active" false 0 "10.0.0.2".
Definition cluster1 : Cluster :=
  mkCluster "c-2" "cluster-2" "Active" false 0 "10.0.0.9".
Definition instance1 : Instance :=
  mkInstance "worker-1" "worker-1.novalocal"
             (mkNodeGroup ["DATANODE"; "NODEMANAGER"] cluster1).

Lemma get_service_by_role_table_witness :
  get_service_by_role "DATANODE" (Some cluster0) None
  = Ok (get_service (get_cloudera_cluster cluster0) HDFS_SERVICE_NAME)
  ∧ get_service_by_role "REGIONSERVER" None (Some instance1)
    = Ok (get_service (get_cloudera_cluster cluster1) HBASE_SERVICE_NAME)
  ∧ get_service_by_role "IMPALAD" (Some cluster0) None
    = Raise (ValueError "Process IMPALAD is not supported by CDH plugin").
Proof.
  split; [|split].
  - apply (proj1 (proj1 (get_service_by_role_table "DATANODE")
                    cluster0 None)).
    refine (bool_decide_eq_true_1 _ _); reflexivity.
  - apply (proj1 (proj2 (get_service_by_role_table "REGIONSERVER")
                    instance1)).
    refine (bool_decide_eq_true_1 _ _); reflexivity.
  - apply (proj2 (proj1 (get_service_by_role_table "IMPALAD")
                    cluster0 None)).
    refine (bool_decide_eq_false_1 _ _); reflexivity.
Defined.

(** C10.  With both a cluster and an instance given, the answer is the
    one for the cluster alone: the instance and its own cluster play no
    part. *)
Theorem get_service_by_role_cluster_first (process : string)
    (cluster : Cluster) (instance : Instance) :
  get_service_by_role process (Some cluster) (Some instance)
  = get_service_by_role process (Some cluster) None
  ∧ routed process (get_cloudera_cluster cluster)
           (get_service_by_role process (Some cluster) (Some instance)).
Proof.
  split; [reflexivity|].
  rewrite get_service_by_role_route. apply route_routed.
Qed.

(** *** [decommission_nodes] *)

Definition hdfs0 : ApiService :=
  get_service (get_cloudera_cluster cluster0) HDFS_SERVICE_NAME.

(** A manager on which the decommission command ends with
    [success = False], every other call being answered normally. *)
Definition mgr_decommission_fails : Manager :=
  mkManager (λ _, []) (λ _, 0%Z) (λ _, Ok tt) (λ _, Ok tt)
            (λ _ _, mkApiCommand 9 false None "Decommission failed")
            (λ _ _, Ok tt).

(** C1.  [decommission_nodes] drops what [wait()] returns: on a
    decommission command that ended with [success = False] it goes on
    to delete every role and returns normally. *)
Theorem decommission_nodes_deletes_after_failure :
  success (mgr_decommission mgr_decommission_fails hdfs0 ["dn-1"; "dn-2"])
  = false
  ∧ decommission_nodes mgr_decommission_fails cluster0 "DATANODE"
                       ["dn-1"; "dn-2"] w0
    = (mkWorld 0 [EvDecommission hdfs0 ["dn-1"; "dn-2"]; EvWait 9;
                  EvDeleteRole hdfs0 "dn-1"; EvDeleteRole hdfs0 "dn-2"],
       Ok tt).
Proof. split; reflexivity. Qed.

(** *** [delete_instances] *)

Section DeleteInstances.

Variable mgr : Manager.
Variable cluster : Cluster.
Variable instances : list Instance.

Let cm_cluster : ApiCluster := get_cloudera_cluster cluster.
Let names : list string := map fqdn instances.

(** The two calls made for one host. *)
Definition host_steps (cm : ApiCluster) (host : ApiHost) : list event :=
  [EvRemoveHost (cm_name cm) (hostId host); EvDeleteHost (hostId host)].

(** Both calls are answered normally for [host]. *)
Definition host_goes (host : ApiHost) : Prop :=
  mgr_remove_host mgr (hostId host) = Ok tt
  ∧ mgr_delete_host mgr (hostId host) = Ok tt.

(** The hosts of an inventory that [delete_instances] is to delete. *)
Definition matching (hosts : list ApiHost) : list ApiHost :=
  filter (λ host, hostname host ∈ names) hosts.

Definition logged (w : world) (events : list event) : world :=
  mkWorld (clock w) (trace w ++ events).

Lemma logged_nil w : logged w [] = w.
Proof. destruct w; unfold logged; simpl. by rewrite app_nil_r. Qed.

Lemma logged_logged w es es' :
  logged (logged w es) es' = logged w (es ++ es').
Proof. unfold logged; simpl. by rewrite app_assoc. Qed.

Lemma delete_instance_host_skip (host : ApiHost) w :
  hostname host ∉ names →
  delete_instance_host mgr cm_cluster names host w = (w, Ok tt).
Proof.
  intros H. unfold delete_instance_host.
  by rewrite (proj2 (str_in_false _ _) H).
Qed.

Lemma delete_instance_host_run (host : ApiHost) w :
  hostname host ∈ names →
  delete_instance_host mgr cm_cluster names host w =
  match mgr_remove_host mgr (hostId host) with
  | Raise e =>
      (logged w [EvRemoveHost (cm_name cm_cluster) (hostId host)], Raise e)
  | Ok _ => (logged w (host_steps cm_cluster host),
             mgr_delete_host mgr (hostId host))
  end.
Proof.
  intros H. unfold delete_instance_host.
  rewrite (proj2 (str_in_true _ _) H).
  unfold remove_host, delete_host, bind, emit, lift_result, logged; simpl.
  destruct (mgr_remove_host mgr (hostId host)); [|reflexivity].
  simpl. by rewrite <- app_assoc.
Qed.

Lemma hosts_loop_all (hosts : list ApiHost) w :
  Forall host_goes (matching hosts) →
  for_each hosts (delete_instance_host mgr cm_cluster names) w
  = (logged w (flat_map (host_steps cm_cluster) (matching hosts)), Ok tt).
Proof.
  revert w. induction hosts as [|host hosts IH]; intros w Hall.
  - simpl. by rewrite logged_nil.
  - rewrite for_each_cons. unfold matching in *.
    destruct (decide (hostname host ∈ names)) as [Hin|Hout].
    + rewrite filter_cons_True in * by done.
      apply Forall_cons in Hall as [[Hr Hd] Hall].
      rewrite delete_instance_host_run, Hr, Hd by done.
      rewrite IH by done. by rewrite logged_logged.
    + rewrite filter_cons_False in * by done.
      rewrite delete_instance_host_skip by done. by apply IH.
Qed.

Lemma hosts_loop_stops (hosts done later : list ApiHost)
    (host : ApiHost) w :
  matching hosts = done ++ host :: later →
  Forall host_goes done →
  for_each hosts (delete_instance_host mgr cm_cluster names) w
  = match mgr_remove_host mgr (hostId host) with
    | Raise e =>
        (logged w (flat_map (host_steps cm_cluster) done
                   ++ [EvRemoveHost (cm_name cm_cluster) (hostId host)]),
         Raise e)
    | Ok _ =>
        match mgr_delete_host mgr (hostId host) with
        | Raise e =>
            (logged w (flat_map (host_steps cm_cluster) (done ++ [host])),
             Raise e)
        | Ok _ =>
            for_each hosts (delete_instance_host mgr cm_cluster names) w
        end
    end.
Proof.
  revert w done. induction hosts as [|x hosts IH]; intros w done Hm Hdone.
  - unfold matching in Hm. simpl in Hm. by destruct done.
  - unfold matching in *.
    destruct (decide (hostname x ∈ names)) as [Hin|Hout].
    + rewrite filter_cons_True in Hm by done.
      rewrite for_each_cons, delete_instance_host_run by done.
      destruct done as [|d done]; simpl in Hm; simplify_eq.
      * destruct (mgr_remove_host mgr (hostId host)) as [[]|e];
          [|reflexivity].
        destruct (mgr_delete_host mgr (hostId host)) as [[]|e];
          reflexivity.
      * apply Forall_cons in Hdone as [[Hr Hd] Hdone].
        rewrite Hr, Hd. rewrite (IH _ done) by done.
        destruct (mgr_remove_host mgr (hostId host)) as [[]|e].
        -- destruct (mgr_delete_host mgr (hostId host)) as [[]|e];
             [reflexivity|].
           rewrite logged_logged. reflexivity.
        -- rewrite logged_logged. reflexivity.
    + rewrite filter_cons_False in Hm by done.
      rewrite for_each_cons, delete_instance_host_skip by done.
      by apply IH.
Qed.

End DeleteInstances.

(** The world after the inventory has been fetched. *)
Definition fetched (mgr : Manager) (w : world) : world :=
  mkWorld (clock w + mgr_latency mgr (clock w)) (trace w ++ [EvGetAllHosts]).

(** C4, as the code has it.  The matching hosts are processed in
    inventory order, removal from the cluster first and deletion
    second.  When no call fails, both calls are made for every matching
    host.  The first call that fails raises out of [delete_instances]:
    the hosts before it have had both calls, the failing host has had
    the calls up to the failing one, and no call is made for the
    matching hosts after it. *)
Theorem delete_instances_until_first_failure (mgr : Manager)
    (cluster : Cluster) (instances : list Instance) (w : world) :
  let cm := get_cloudera_cluster cluster in
  let found := matching instances (mgr_hosts mgr (clock w)) in
  (Forall (host_goes mgr) found →
   delete_instances mgr cluster instances w
   = (logged (fetched mgr w) (flat_map (host_steps cm) found), Ok tt))
  ∧ (∀ done host later e,
       found = done ++ host :: later →
       Forall (host_goes mgr) done →
       mgr_remove_host mgr (hostId host) = Raise e →
       delete_instances mgr cluster instances w
       = (logged (fetched mgr w)
                 (flat_map (host_steps cm) done
                  ++ [EvRemoveHost (cm_name cm) (hostId host)]),
          Raise e))
  ∧ (∀ done host later e,
       found = done ++ host :: later →
       Forall (host_goes mgr) done →
       mgr_remove_host mgr (hostId host) = Ok tt →
       mgr_delete_host mgr (hostId host) = Raise e →
       delete_instances mgr cluster instances w
       = (logged (fetched mgr w)
                 (flat_map (host_steps cm) (done ++ [host])),
          Raise e)).
Proof.
  intros cm found.
  assert (Hrun : delete_instances mgr cluster instances w
                 = for_each (mgr_hosts mgr (clock w))
                     (delete_instance_host mgr cm (map fqdn instances))
                     (fetched mgr w)) by reflexivity.
  rewrite Hrun. split; [|split].
  - intros Hall. by apply hosts_loop_all.
  - intros done host later e Hfound Hdone Hr.
    rewrite (hosts_loop_stops mgr cluster instances _ done later host)
      by done.
    by rewrite Hr.
  - intros done host later e Hfound Hdone Hr Hd.
    rewrite (hosts_loop_stops mgr cluster instances _ done later host)
      by done.
    by rewrite Hr, Hd.
Qed.

Definition host_a : ApiHost := mkApiHost "host-a" "worker-a.novalocal".
Definition host_b : ApiHost := mkApiHost "host-b" "worker-b.novalocal".
Definition host_m : ApiHost := mkApiHost "host-m" "manager.novalocal".
Definition worker_group : NodeGroup :=
  mkNodeGroup ["DATANODE"; "NODEMANAGER"] cluster0.
Definition inst_a : Instance :=
  mkInstance "worker-a" "worker-a.novalocal" worker_group.
Definition inst_b : Instance :=
  mkInstance "worker-b" "worker-b.novalocal" worker_group.

(** A manager with three hosts on which [remove_host] fails for
    [host-a] and every other call is answered normally. *)
Definition mgr_remove_fails : Manager :=
  mkManager (λ _, [host_m; host_a; host_b]) (λ _, 0%Z)
            (λ host, if decide (host = "host-a")
                     then Raise (RemoteError "Host is busy") else Ok tt)
            (λ _, Ok tt)
            (λ _ _, ok_cmd)
            (λ _ _, Ok tt).

Lemma delete_instances_until_first_failure_witness :
  delete_instances mgr_remove_fails cluster0 [inst_b] w0
  = (mkWorld 0 [EvGetAllHosts; EvRemoveHost "cluster-1" "host-b";
                EvDeleteHost "host-b"], Ok tt)
  ∧ delete_instances mgr_remove_fails cluster0 [inst_a; inst_b] w0
    = (mkWorld 0 [EvGetAllHosts; EvRemoveHost "cluster-1" "host-a"],
       Raise (RemoteError "Host is busy")).
Proof.
  split.
  - apply (proj1 (delete_instances_until_first_failure
                    mgr_remove_fails cluster0 [inst_b] w0)).
    repeat constructor.
  - apply (proj1 (proj2 (delete_instances_until_first_failure
                           mgr_remove_fails cluster0 [inst_a; inst_b] w0))
             [] host_a [host_b] (RemoteError "Host is busy"));
      [reflexivity | constructor | reflexivity].
Defined.

(** C4 as the specification words it: for every host of the inventory
    whose hostname is the name of one of the instances, both calls are
    attempted, whatever happens for the other hosts. *)
Definition every_matching_host_attempted (mgr : Manager)
    (cluster : Cluster) (instances : list Instance) (w : world) : Prop :=
  ∀ host,
    host ∈ mgr_hosts mgr (clock w) →
    hostname host ∈ map fqdn instances →
    let calls := trace (delete_instances mgr cluster instances w).1 in
    EvRemoveHost (cm_name (get_cloudera_cluster cluster)) (hostId host)
      ∈ calls
    ∧ EvDeleteHost (hostId host) ∈ calls.

(** With [remove_host] failing on the first matching host, that host
    is not deleted and the second matching host gets no call. *)
Lemma delete_instances_failure_stops_the_loop :
  ¬ every_matching_host_attempted mgr_remove_fails cluster0
      [inst_a; inst_b] w0.
Proof.
  intros H.
  destruct (H host_b) as [Hremove _].
  - do 2 apply list_elem_of_further. apply list_elem_of_here.
  - refine (bool_decide_eq_true_1 _ _); reflexivity.
  - vm_compute in Hremove.
    repeat (apply elem_of_cons in Hremove as [Hremove|Hremove];
            [discriminate|]).
    by apply elem_of_nil in Hremove.
Qed.

(** *** [await_agents] *)

Lemma is_ok_true (hostnames hostnames_to_manager : list string) :
  is_ok hostnames hostnames_to_manager = true
  ↔ ∀ h, h ∈ hostnames → h ∈ hostnames_to_manager.
Proof.
  induction hostnames as [|x hostnames IH]; simpl.
  - split; [intros _ h Hh; by apply elem_of_nil in Hh | done].
  - destruct (str_in x hostnames_to_manager) eqn:Hx; simpl.
    + apply str_in_true in Hx. rewrite IH. split.
      * intros H h [->|Hh]%elem_of_cons; auto.
      * intros H h Hh. apply H. by apply list_elem_of_further.
    + apply str_in_false in Hx. split; [done|].
      intros H. destruct Hx. apply H, list_elem_of_here.
Qed.

(** A first [k] with [f k = true] below [n], if there is one. *)
Lemma first_true_below (f : nat → bool) (n : nat) :
  (∀ j, j < n → f j = false)
  ∨ (∃ k, k < n ∧ f k = true ∧ ∀ j, j < k → f j = false).
Proof.
  induction n as [|n [IH|(k & Hk & Hf & Hfirst)]].
  - left; intros j Hj; lia.
  - destruct (f n) eqn:Hn.
    + right. exists n. split; [lia|]. split; [done|]. exact IH.
    + left. intros j Hj. destruct (decide (j = n)) as [->|]; [done|].
      apply IH; lia.
  - right. exists k. split; [lia|]. done.
Qed.

Section AwaitAgents.

Variable mgr : Manager.
Variable instances : list Instance.

(** The inventory of instant [t] holds the name of every instance. *)
Definition registered (t : Z) : Prop :=
  ∀ i, i ∈ instances → fqdn i ∈ map hostname (mgr_hosts mgr t).

Definition registeredb (t : Z) : bool :=
  is_ok (map fqdn instances) (map hostname (mgr_hosts mgr t)).

Lemma registeredb_true (t : Z) : registeredb t = true ↔ registered t.
Proof.
  unfold registeredb, registered. rewrite is_ok_true. split.
  - intros H i Hi. apply H.
    apply list_elem_of_In, in_map, list_elem_of_In, Hi.
  - intros H h Hh. apply list_elem_of_In, in_map_iff in Hh as (i & <- & Hi).
    apply H, list_elem_of_In, Hi.
Qed.

Lemma registeredb_false (t : Z) : registeredb t = false ↔ ¬ registered t.
Proof. rewrite <- registeredb_true. by destruct (registeredb t). Qed.

(** The instant of the [k]-th inventory request, counted from 0, of a
    loop that starts at [t] and never finds the agents: each round
    takes the latency of its request and the sleep of 5 seconds. *)
Fixpoint poll_time (t : Z) (k : nat) : Z :=
  match k with
  | O => t
  | S k' => poll_time (t + mgr_latency mgr t + 5 * 1000000) k'
  end.

(** The calls of [k] rounds that did not find the agents. *)
Fixpoint polls (k : nat) : list event :=
  match k with
  | O => []
  | S k' => EvGetAllHosts :: EvSleep 5 :: polls k'
  end.

(** The timeout in microseconds. *)
Definition timeout_us : Z := timeout * 1000000.

Lemma await_loop_step (fuel : nat) (s_time : Z) (w : world) :
  await_loop (S fuel) mgr instances s_time w =
  if decide (clock w - s_time < timeout_us)%Z then
    if registeredb (clock w) then Some (fetched mgr w, Ok tt)
    else await_loop fuel mgr instances s_time
           (mkWorld (clock w + mgr_latency mgr (clock w) + 5 * 1000000)
                    (trace w ++ [EvGetAllHosts; EvSleep 5]))
  else Some (w, Raise agents_failed).
Proof.
  simpl. fold (registeredb (clock w)).
  destruct (decide (clock w - s_time < timeout_us)%Z) as [Hlt|Hge].
  - rewrite (proj2 (seconds_lt_spec _ _ _) Hlt).
    destruct (registeredb (clock w)); simpl; [reflexivity|].
    by rewrite <- app_assoc.
  - assert (seconds_lt (delta_seconds s_time (clock w)) timeout = false)
      as -> by (apply seconds_lt_false; unfold timeout_us in Hge; lia).
    reflexivity.
Qed.

Lemma await_loop_connects (s_time : Z) (k : nat) :
  ∀ fuel w,
    (k < fuel)%nat →
    (∀ j, (j ≤ k)%nat → (poll_time (clock w) j - s_time < timeout_us)%Z) →
    (∀ j, (j < k)%nat → ¬ registered (poll_time (clock w) j)) →
    registered (poll_time (clock w) k) →
    await_loop fuel mgr instances s_time w
    = Some (mkWorld (poll_time (clock w) k
                     + mgr_latency mgr (poll_time (clock w) k))
                    (trace w ++ polls k ++ [EvGetAllHosts]),
            Ok tt).
Proof.
  induction k as [|k IH]; intros [|fuel] w Hfuel Htime Hnot Hreg;
    try lia; rewrite await_loop_step.
  - rewrite decide_True by apply (Htime 0), le_n. simpl in Hreg.
    by rewrite (proj2 (registeredb_true _) Hreg).
  - rewrite decide_True by (apply (Htime 0); lia).
    rewrite (proj2 (registeredb_false (clock w)) (Hnot 0 ltac:(lia))).
    rewrite (IH fuel); simpl.
    + by rewrite <- app_assoc.
    + lia.
    + intros j Hj. apply (Htime (S j)). lia.
    + intros j Hj. apply (Hnot (S j)). lia.
    + exact Hreg.
Qed.

Lemma await_loop_times_out (s_time : Z) (n : nat) :
  ∀ fuel w,
    (n < fuel)%nat →
    (∀ j, (j < n)%nat → (poll_time (clock w) j - s_time < timeout_us)%Z) →
    (∀ j, (j < n)%nat → ¬ registered (poll_time (clock w) j)) →
    (timeout_us ≤ poll_time (clock w) n - s_time)%Z →
    await_loop fuel mgr instances s_time w
    = Some (mkWorld (poll_time (clock w) n) (trace w ++ polls n),
            Raise agents_failed).
Proof.
  induction n as [|n IH]; intros [|fuel] w Hfuel Htime Hnot Hout;
    try lia; rewrite await_loop_step.
  - simpl in Hout. rewrite decide_False by lia.
    destruct w; simpl. by rewrite app_nil_r.
  - rewrite decide_True by (apply (Htime 0); lia).
    rewrite (proj2 (registeredb_false (clock w)) (Hnot 0 ltac:(lia))).
    rewrite (IH fuel); simpl.
    + by rewrite <- app_assoc.
    + lia.
    + intros j Hj. apply (Htime (S j)). lia.
    + intros j Hj. apply (Hnot (S j)). lia.
    + exact Hout.
Qed.

Hypothesis latency_nonneg : ∀ t, (0 ≤ mgr_latency mgr t)%Z.

Lemma poll_time_le (k : nat) : ∀ t, (t ≤ poll_time t k)%Z.
Proof.
  induction k as [|k IH]; intros t; simpl; [lia|].
  specialize (IH (t + mgr_latency mgr t + 5 * 1000000)%Z).
  specialize (latency_nonneg t). lia.
Qed.

Lemma poll_time_mono (j k : nat) :
  (j ≤ k)%nat → ∀ t, (poll_time t j ≤ poll_time t k)%Z.
Proof.
  revert k. induction j as [|j IH]; intros k Hjk t.
  - apply poll_time_le.
  - destruct k as [|k]; [lia|]. simpl. apply IH. lia.
Qed.

(** The loop check fails for good within [b] rounds when the time
    left is at most [b] sleeps. *)
Lemma first_timeout (s_time : Z) (b : nat) :
  ∀ t,
    (timeout_us - (t - s_time) ≤ 5 * 1000000 * Z.of_nat b)%Z →
    ∃ n, (n ≤ b)%nat
         ∧ (timeout_us ≤ poll_time t n - s_time)%Z
         ∧ ∀ j, (j < n)%nat → (poll_time t j - s_time < timeout_us)%Z.
Proof.
  induction b as [|b IH]; intros t Hleft.
  - exists 0. split; [lia|]. split; [simpl; lia|]. intros j Hj; lia.
  - destruct (decide (timeout_us ≤ t - s_time)%Z) as [Hout|Hin].
    + exists 0. split; [lia|]. split; [exact Hout|]. intros j Hj; lia.
    + destruct (IH (t + mgr_latency mgr t + 5 * 1000000)%Z)
        as (n & Hn & Hout & Hbefore).
      { specialize (latency_nonneg t). lia. }
      exists (S n). split; [lia|]. split; [exact Hout|].
      intros [|j] Hj; simpl; [lia|]. apply Hbefore. lia.
Qed.

End AwaitAgents.

(** C8.  For a non-empty list of instances and a manager that takes
    no negative time to answer, with [at_poll k] the instant of the
    [k]-th inventory request:
    - when request [k] is the first whose inventory holds the name of
      every instance and it is made less than 300 seconds after the
      start, [await_agents] returns normally right after that request,
      having slept 5 seconds after each of the [k] requests before;
    - when every request made before the 300 seconds are over misses a
      name, [await_agents] raises the agents-failed provisioning error
      at the first loop check that finds 300 seconds or more elapsed;
    - the loop ends within 61 rounds. *)
Theorem await_agents_outcome (mgr : Manager) (instances : list Instance)
    (w : world) :
  instances ≠ [] →
  (∀ t, (0 ≤ mgr_latency mgr t)%Z) →
  let at_poll := poll_time mgr (clock w) in
  (∀ k fuel,
     (k < fuel)%nat →
     (∀ j, (j < k)%nat → ¬ registered mgr instances (at_poll j)) →
     registered mgr instances (at_poll k) →
     (at_poll k - clock w < timeout_us)%Z →
     await_agents fuel mgr instances w
     = Some (mkWorld (at_poll k + mgr_latency mgr (at_poll k))
                     (trace w ++ polls k ++ [EvGetAllHosts]),
             Ok tt))
  ∧ ((∀ k, (at_poll k - clock w < timeout_us)%Z →
           ¬ registered mgr instances (at_poll k)) →
     ∃ n, (n ≤ 60)%nat
          ∧ (timeout_us ≤ at_poll n - clock w)%Z
          ∧ (∀ j, (j < n)%nat → (at_poll j - clock w < timeout_us)%Z)
          ∧ ∀ fuel,
              (n < fuel)%nat →
              await_agents fuel mgr instances w
              = Some (mkWorld (at_poll n) (trace w ++ polls n),
                      Raise agents_failed))
  ∧ (∀ fuel, (60 < fuel)%nat →
             is_Some (await_agents fuel mgr instances w)).
Proof.
  intros Hne Hlat. cbv zeta.
  destruct instances as [|first others]; [done|].
  set (instances := first :: others) in *.
  assert (Hrun : ∀ fuel, await_agents fuel mgr instances w
                         = await_loop fuel mgr instances (clock w) w)
    by reflexivity.
  destruct (first_timeout mgr Hlat (clock w) 60 (clock w))
    as (n & Hn & Hout & Hbefore); [unfold timeout_us, timeout; lia|].
  split; [|split].
  - intros k fuel Hfuel Hnot Hreg Htime. rewrite Hrun.
    apply await_loop_connects; try done.
    intros j Hj. pose proof (poll_time_mono mgr Hlat j k Hj (clock w)).
    lia.
  - intros Hnever. exists n. repeat split; try done.
    intros fuel Hfuel. rewrite Hrun.
    apply await_loop_times_out; try done.
    intros j Hj. apply Hnever, Hbefore, Hj.
  - intros fuel Hfuel. rewrite Hrun.
    destruct (first_true_below
                (λ j, registeredb mgr instances (poll_time mgr (clock w) j)) n)
      as [Hnone|(k & Hk & Hreg & Hfirst)].
    + rewrite (await_loop_times_out mgr instances (clock w) n);
        [done | lia | done | | done].
      intros j Hj. apply registeredb_false, Hnone, Hj.
    + rewrite (await_loop_connects mgr instances (clock w) k);
        [done | lia | | | by apply registeredb_true].
      * intros j Hj. apply Hbefore. lia.
      * intros j Hj. apply registeredb_false, Hfirst, Hj.
Qed.

(** A manager that answers at once and on which [host-b] registers 10
    seconds after the start. *)
Definition mgr_late : Manager :=
  mkManager (λ t, if decide (t < 10 * 1000000)%Z
                  then [host_m; host_a] else [host_m; host_a; host_b])
            (λ _, 0%Z) (λ _, Ok tt) (λ _, Ok tt)
            (λ _ _, ok_cmd) (λ _ _, Ok tt).

Lemma await_agents_outcome_witness :
  await_agents 61 mgr_late [inst_a; inst_b] w0
  = Some (mkWorld 10000000
                  [EvGetAllHosts; EvSleep 5; EvGetAllHosts; EvSleep 5;
                   EvGetAllHosts],
          Ok tt).
Proof.
  apply (proj1 (await_agents_outcome mgr_late [inst_a; inst_b] w0
                  ltac:(discriminate) ltac:(intros t; simpl; lia))
           2%nat 61%nat).
  - lia.
  - intros [|[|j]] Hj Hreg; try lia;
      apply registeredb_true in Hreg; discriminate Hreg.
  - apply registeredb_true. reflexivity.
  - reflexivity.
Defined.

(** The example of the specification: two instances, the second one
    registering at 250 seconds, and the second one never registering. *)
Definition mgr_at_250 : Manager :=
  mkManager (λ t, if decide (t < 250 * 1000000)%Z
                  then [host_a] else [host_a; host_b])
            (λ _, 0%Z) (λ _, Ok tt) (λ _, Ok tt)
            (λ _ _, ok_cmd) (λ _ _, Ok tt).

Definition mgr_never : Manager :=
  mkManager (λ _, [host_a]) (λ _, 0%Z) (λ _, Ok tt) (λ _, Ok tt)
            (λ _ _, ok_cmd) (λ _ _, Ok tt).

Example await_agents_registers_at_250 :
  await_agents 61 mgr_at_250 [inst_a; inst_b] w0
  = Some (mkWorld 250000000 (polls 50 ++ [EvGetAllHosts]), Ok tt).
Proof. vm_compute. reflexivity. Qed.

Example await_agents_never_registers :
  await_agents 61 mgr_never [inst_a; inst_b] w0
  = Some (mkWorld 300000000 (polls 60), Raise agents_failed).
Proof. vm_compute. reflexivity. Qed.

Example await_agents_no_instances :
  await_agents 61 mgr_never [] w0 = Some (w0, Raise IndexError).
Proof. reflexivity. Qed.

End ClouderaUtilsProofs.


(** ** [periodic.py] *)

Module PeriodicProofs.
Import Periodic.

Definition idle : world := mkWorld None 0 [].

Definition no_clusters : Conductor := mkConductor [] ∅.

(** *** [update_job_statuses] *)

(** The world in which [job_manager.update_job_statuses()] has been
    called under the admin context, with [ctx] current afterwards. *)
Definition after_update (ctx : option Context) (w : world) : world :=
  mkWorld ctx (clock w)
          (calls w ++ [EvUpdateJobStatuses (Some AdminContext)]).

(** C9, as the code has it.  The collaborator is called under the admin
    context.  When it returns normally the context is reset to [None];
    when it raises, the exception leaves [update_job_statuses] and the
    admin context stays current. *)
Theorem update_job_statuses_context (env : Collaborators) (w : world) :
  (job_manager_update_job_statuses env = Ok tt →
   update_job_statuses env w = (after_update None w, Ok tt))
  ∧ (∀ e, job_manager_update_job_statuses env = Raise e →
          update_job_statuses env w
          = (after_update (Some AdminContext) w, Raise e)).
Proof.
  unfold update_job_statuses, bind, set_ctx, job_manager_call, after_update.
  simpl. split.
  - intros ->. reflexivity.
  - intros e ->. reflexivity.
Qed.

Definition env_updates : Collaborators :=
  mkCollaborators no_clusters (Ok tt) (λ _, Ok tt) [].

Definition env_update_fails : Collaborators :=
  mkCollaborators no_clusters (Raise (RemoteError "engine unreachable"))
                  (λ _, Ok tt) [].

Lemma update_job_statuses_context_witness :
  update_job_statuses env_updates idle
  = (mkWorld None 0 [EvUpdateJobStatuses (Some AdminContext)], Ok tt)
  ∧ update_job_statuses env_update_fails idle
    = (mkWorld (Some AdminContext) 0
               [EvUpdateJobStatuses (Some AdminContext)],
       Raise (RemoteError "engine unreachable")).
Proof.
  split.
  - apply (proj1 (update_job_statuses_context env_updates idle)). reflexivity.
  - apply (proj2 (update_job_statuses_context env_update_fails idle)).
    reflexivity.
Defined.

(** C9 as the specification words it: the context is [None] after the
    task, whatever the collaborator did. *)
Definition context_cleared_whatever_outcome (env : Collaborators)
    (w : world) : Prop :=
  current_ctx (update_job_statuses env w).1 = None.

Lemma update_job_statuses_keeps_context_on_raise :
  ¬ context_cleared_whatever_outcome env_update_fails idle.
Proof. unfold context_cleared_whatever_outcome. simpl. discriminate. Qed.

(** *** [terminate_unneeded_clusters] *)

Definition recorded (w : world) (events : list event) : world :=
  mkWorld (current_ctx w) (clock w) (calls w ++ events).

Lemma recorded_nil w : recorded w [] = w.
Proof. destruct w; unfold recorded; simpl. by rewrite app_nil_r. Qed.

Lemma recorded_app w es es' :
  recorded (recorded w es) es' = recorded w (es ++ es').
Proof. unfold recorded; simpl. by rewrite app_assoc. Qed.

Lemma seconds_lt_Qle (x : Q) (n : Z) :
  seconds_lt x n = false ↔ Qle (inject_Z n) x.
Proof. unfold seconds_lt. by rewrite negb_false_iff, Qle_bool_iff. Qed.

(** Distinct elements have distinct keys. *)
Lemma NoDup_map_inj {A B} (f : A → B) (l : list A) (x y : A) :
  NoDup (map f l) → x ∈ l → y ∈ l → f x = f y → x = y.
Proof.
  induction l as [|z l IH]; simpl; intros Hnd Hx Hy Hxy.
  - by apply elem_of_nil in Hx.
  - apply NoDup_cons in Hnd as [Hz Hnd].
    assert (Hin : ∀ a, a ∈ l → f a ∈ map f l)
      by (intros a Ha; apply list_elem_of_In, in_map, list_elem_of_In, Ha).
    apply elem_of_cons in Hx as [->|Hx]; apply elem_of_cons in Hy as [->|Hy].
    + reflexivity.
    + destruct Hz. rewrite Hxy. by apply Hin.
    + destruct Hz. rewrite <- Hxy. by apply Hin.
    + by apply IH.
Qed.

Section TerminateUnneeded.

Variable conf : Conf.
Variable env : Collaborators.

(** The four guards: at instant [now] the cluster is Active, transient,
    has no job execution without an end time, and was last updated at
    least [min_transient_cluster_active_time] seconds ago. *)
Definition unneeded (now : Z) (c : Cluster) : Prop :=
  cluster_status c = "Active"
  ∧ is_transient c = true
  ∧ job_execution_count (conductor env) None (cluster_id c) = 0%nat
  ∧ Qle (inject_Z (min_transient_cluster_active_time conf))
        (delta_seconds (updated_at c) now).

(** The calls that terminate a cluster. *)
Definition termination_action (c : Cluster) : list event :=
  if use_identity_api_v3 conf
  then [EvUseOsAdminAuthToken (cluster_id c); EvTerminateCluster (cluster_id c)]
  else [EvClusterUpdate (cluster_id c) "AwaitingTermination"].

(** [c] is subjected to the termination action among the calls [new]. *)
Definition terminated (c : Cluster) (new : list event) : Prop :=
  if use_identity_api_v3 conf
  then EvTerminateCluster (cluster_id c) ∈ new
  else EvClusterUpdate (cluster_id c) "AwaitingTermination" ∈ new.

(** The cluster a call is about. *)
Definition event_cluster (e : event) : option string :=
  match e with
  | EvUseOsAdminAuthToken id | EvTerminateCluster id | EvClusterUpdate id _ =>
      Some id
  | EvUpdateJobStatuses _ | EvProxyUserDelete _ => None
  end.

(** No call among [new] is about [c]. *)
Definition untouched (c : Cluster) (new : list event) : Prop :=
  ∀ e, e ∈ new → event_cluster e ≠ Some (cluster_id c).

Lemma unneeded_dec (now : Z) (c : Cluster) :
  unneeded now c ∨ ¬ unneeded now c.
Proof.
  unfold unneeded.
  destruct (decide (cluster_status c = "Active")); [|tauto].
  destruct (decide (is_transient c = true)); [|tauto].
  destruct (decide (job_execution_count (conductor env) None (cluster_id c)
                    = 0%nat)); [|tauto].
  destruct (seconds_lt (delta_seconds (updated_at c) now)
              (min_transient_cluster_active_time conf)) eqn:Hlt.
  - right. intros (_ & _ & _ & Hle). apply seconds_lt_Qle in Hle. congruence.
  - left. apply seconds_lt_Qle in Hlt. tauto.
Qed.

Lemma termination_action_cluster (c : Cluster) (e : event) :
  e ∈ termination_action c → event_cluster e = Some (cluster_id c).
Proof.
  unfold termination_action. destruct (use_identity_api_v3 conf); intros H;
    repeat (apply elem_of_cons in H as [->|H]; [reflexivity|]);
    by apply elem_of_nil in H.
Qed.

Lemma terminated_action (c : Cluster) (new : list event) :
  terminated c new
  ↔ ∃ e, e ∈ new ∧ e ∈ termination_action c
         ∧ e ≠ EvUseOsAdminAuthToken (cluster_id c).
Proof.
  unfold terminated, termination_action.
  destruct (use_identity_api_v3 conf); split.
  - intros H. eexists. split; [exact H|]. split; [|done].
    apply list_elem_of_further, list_elem_of_here.
  - intros (e & He & Hin & Hne).
    apply elem_of_cons in Hin as [->|Hin]; [done|].
    apply elem_of_cons in Hin as [->|Hin]; [done|].
    by apply elem_of_nil in Hin.
  - intros H. eexists. split; [exact H|]. split; [|done].
    apply list_elem_of_here.
  - intros (e & He & Hin & Hne).
    apply elem_of_cons in Hin as [->|Hin]; [done|].
    by apply elem_of_nil in Hin.
Qed.

Lemma cluster_body_acts (c : Cluster) (w : world) :
  unneeded (clock w) c →
  terminate_unneeded_cluster conf env c w
  = (recorded w (termination_action c), Ok tt).
Proof.
  intros (Hstatus & Htransient & Hjc & Hold).
  unfold terminate_unneeded_cluster, termination_action.
  rewrite Htransient, Hjc; simpl.
  unfold bind at 1, utcnow at 1.
  rewrite (proj2 (seconds_lt_Qle _ _) Hold).
  destruct (use_identity_api_v3 conf).
  - unfold bind, try_except, terminate_cluster, use_os_admin_auth_token,
      emit, lift_result, bind, ret, recorded; simpl.
    rewrite <- app_assoc; simpl.
    by destruct (ops_terminate_cluster env (cluster_id c)) as [[]|e].
  - rewrite Hstatus; reflexivity.
Qed.

Lemma cluster_body_skips (c : Cluster) (w : world) :
  cluster_status c = "Active" →
  ¬ unneeded (clock w) c →
  terminate_unneeded_cluster conf env c w = (w, Ok tt).
Proof.
  intros Hstatus Hnot. unfold terminate_unneeded_cluster.
  destruct (is_transient c) eqn:Htransient; simpl; [|reflexivity].
  destruct (job_execution_count (conductor env) None (cluster_id c))
    as [|jc] eqn:Hjc; simpl; [|reflexivity].
  unfold bind at 1, utcnow at 1.
  destruct (seconds_lt (delta_seconds (updated_at c) (clock w))
              (min_transient_cluster_active_time conf)) eqn:Hlt;
    [reflexivity|].
  destruct Hnot. apply seconds_lt_Qle in Hlt. by repeat split.
Qed.

Lemma clusters_loop (l : list Cluster) :
  ∀ w, ∃ new,
    for_each (filter (λ c, cluster_status c = "Active") l)
             (terminate_unneeded_cluster conf env) w
    = (recorded w new, Ok tt)
    ∧ ∀ e, e ∈ new
           ↔ ∃ c, c ∈ l ∧ unneeded (clock w) c ∧ e ∈ termination_action c.
Proof.
  induction l as [|x l IH]; intros w.
  - exists []. split; [simpl; by rewrite recorded_nil|].
    intros e; split; [by intros ?%elem_of_nil|].
    by intros (c & ?%elem_of_nil & _).
  - destruct (decide (cluster_status x = "Active")) as [Hactive|Hother].
    + rewrite filter_cons_True by done. rewrite for_each_cons.
      destruct (unneeded_dec (clock w) x) as [Hdue|Hnot].
      * rewrite cluster_body_acts by done.
        destruct (IH (recorded w (termination_action x))) as (new & -> & Hnew).
        exists (termination_action x ++ new).
        split; [by rewrite recorded_app|].
        intros e. rewrite elem_of_app, Hnew. simpl. split.
        -- intros [He|(c & Hc & Hdue' & He)].
           ++ exists x. split; [apply list_elem_of_here|done].
           ++ exists c. split; [by apply list_elem_of_further|done].
        -- intros (c & [->|Hc]%elem_of_cons & Hdue' & He); [by left|].
           right. by exists c.
      * rewrite cluster_body_skips by done.
        destruct (IH w) as (new & -> & Hnew).
        exists new. split; [done|].
        intros e. rewrite Hnew. split.
        -- intros (c & Hc & Hdue' & He).
           exists c. split; [by apply list_elem_of_further|done].
        -- intros (c & [->|Hc]%elem_of_cons & Hdue' & He); [done|].
           by exists c.
    + rewrite filter_cons_False by done.
      destruct (IH w) as (new & -> & Hnew).
      exists new. split; [done|].
      intros e. rewrite Hnew. split.
      * intros (c & Hc & Hdue' & He).
        exists c. split; [by apply list_elem_of_further|done].
      * intros (c & [->|Hc]%elem_of_cons & Hdue' & He);
          [by destruct Hdue'|].
        by exists c.
Qed.

End TerminateUnneeded.

(** C5.  With cluster ids distinct, a cycle returns normally with the
    context reset, and among the calls it made a cluster of the
    conductor's table is subjected to the termination action
    ([ops.terminate_cluster] under identity API v3, the status update to
    AwaitingTermination otherwise) exactly when it passes the four guards;
    no call is about a cluster that fails one of them. *)
Theorem terminate_unneeded_clusters_guards (conf : Conf)
    (env : Collaborators) (w : world) :
  NoDup (map cluster_id (clusters (conductor env))) →
  ∃ new,
    terminate_unneeded_clusters conf env w
    = (mkWorld None (clock w) (calls w ++ new), Ok tt)
    ∧ ∀ c, c ∈ clusters (conductor env) →
           (terminated conf c new ↔ unneeded conf env (clock w) c)
           ∧ (¬ unneeded conf env (clock w) c → untouched c new).
Proof.
  intros Hids.
  destruct (clusters_loop conf env (clusters (conductor env))
              (mkWorld (Some AdminContext) (clock w) (calls w)))
    as (new & Hrun & Hnew).
  simpl in Hnew.
  assert (Hsame : ∀ c e,
             c ∈ clusters (conductor env) →
             e ∈ new → event_cluster e = Some (cluster_id c) →
             unneeded conf env (clock w) c).
  { intros c e Hc He Hid. apply Hnew in He as (c' & Hc' & Hdue & He).
    apply termination_action_cluster in He.
    assert (c' = c) as ->; [|done].
    apply (NoDup_map_inj cluster_id (clusters (conductor env))); try done.
    congruence. }
  exists new. split.
  - transitivity
      (match for_each (filter (λ c, cluster_status c = "Active")
                              (clusters (conductor env)))
                      (terminate_unneeded_cluster conf env)
                      (mkWorld (Some AdminContext) (clock w) (calls w)) with
       | (w', Ok _) => set_ctx None w'
       | (w', Raise e) => (w', Raise e)
       end); [reflexivity|].
    rewrite Hrun. reflexivity.
  - intros c Hc. split; [split|].
    + intros (e & He & Hact & _)%terminated_action.
      apply (Hsame c e); try done.
      by apply (termination_action_cluster conf).
    + intros Hdue. apply terminated_action.
      assert (∃ e, e ∈ termination_action conf c
                   ∧ e ≠ EvUseOsAdminAuthToken (cluster_id c))
        as (e & He & Hne).
      { unfold termination_action. destruct (use_identity_api_v3 conf).
        - eexists; split;
            [apply list_elem_of_further, list_elem_of_here | done].
        - eexists; split; [apply list_elem_of_here | done]. }
      exists e. split; [|done]. apply Hnew. by exists c.
    + intros Hnot e He Hid. apply Hnot. by apply (Hsame c e).
Qed.

Definition conf_v3 : Conf := mkConf true 60 60 30 true false.
Definition conf_v2 : Conf := mkConf true 60 60 30 false false.

Definition c_due : Cluster :=
  mkCluster "c-due" "nightly" "Active" true 0 "10.0.0.2".
Definition c_busy : Cluster :=
  mkCluster "c-busy" "etl" "Active" true 0 "10.0.0.3".
Definition c_fresh : Cluster :=
  mkCluster "c-fresh" "adhoc" "Active" true 80000000 "10.0.0.4".
Definition c_kept : Cluster :=
  mkCluster "c-kept" "warehouse" "Active" false 0 "10.0.0.5".
Definition c_starting : Cluster :=
  mkCluster "c-starting" "batch" "Starting" true 0 "10.0.0.6".

Definition running_info : gmap string string := {[ "status" := "RUNNING" ]}.
Definition succeeded_info : gmap string string :=
  {[ "status" := "SUCCEEDED" ]}.

Definition db : Conductor :=
  mkConductor [c_busy; c_due; c_fresh; c_kept; c_starting]
    (<[ "je-1" := mkJobExecution "c-busy" None running_info ]>
       (<[ "je-2" := mkJobExecution "c-due" (Some 50000000%Z) succeeded_info ]>
          ∅)).

(** A deployment on which [ops.terminate_cluster] fails. *)
Definition env_db : Collaborators :=
  mkCollaborators db (Ok tt) (λ _, Raise (RemoteError "heat stack busy"))
    [mkUser "u-1" "job_je-1"; mkUser "u-2" "job_je-2";
     mkUser "u-3" "job_je-3"; mkUser "u-4" "admin"].

(** A world 90 seconds after the clusters at instant 0 were updated. *)
Definition at_90s : world := mkWorld None 90000000 [].

Lemma terminate_unneeded_clusters_guards_witness :
  ∃ new,
    terminate_unneeded_clusters conf_v3 env_db at_90s
    = (mkWorld None 90000000 new, Ok tt)
    ∧ ∀ c, c ∈ clusters db →
           (terminated conf_v3 c new ↔ unneeded conf_v3 env_db 90000000 c)
           ∧ (¬ unneeded conf_v3 env_db 90000000 c → untouched c new).
Proof.
  apply (terminate_unneeded_clusters_guards conf_v3 env_db at_90s).
  refine (bool_decide_eq_true_1 _ _); reflexivity.
Defined.

Example terminate_unneeded_clusters_v3 :
  terminate_unneeded_clusters conf_v3 env_db at_90s
  = (mkWorld None 90000000
             [EvUseOsAdminAuthToken "c-due"; EvTerminateCluster "c-due"],
     Ok tt).
Proof. vm_compute. reflexivity. Qed.

Example terminate_unneeded_clusters_v2 :
  terminate_unneeded_clusters conf_v2 env_db at_90s
  = (mkWorld None 90000000 [EvClusterUpdate "c-due" "AwaitingTermination"],
     Ok tt).
Proof. vm_compute. reflexivity. Qed.

(** *** [check_for_zombie_proxy_users] *)

Lemma prefix_str_from (p : string) :
  ∀ s, String.prefix p s = true → s = p +:+ str_from (String.length p) s.
Proof.
  induction p as [|a p IH]; intros s H; [reflexivity|].
  destruct s as [|b s]; cbn [String.prefix] in H; [discriminate|].
  destruct (Ascii.ascii_dec a b) as [->|]; [|discriminate].
  change (String b s = String b (p +:+ str_from (String.length p) s)).
  f_equal. by apply IH.
Qed.

Lemma startswith_job (name : string) :
  startswith name "job_" = true → name = "job_" +:+ str_from 4 name.
Proof. intros H. exact (prefix_str_from "job_" name H). Qed.

Lemma app_prefix_str_from (p s : string) :
  String.prefix p (p +:+ s) = true ∧ str_from (String.length p) (p +:+ s) = s.
Proof.
  induction p as [|a p [IHp IHs]]; [by destruct s|].
  change (String a p +:+ s) with (String a (p +:+ s)).
  split; [|exact IHs].
  cbn [String.prefix]. by destruct (Ascii.ascii_dec a a).
Qed.

Lemma job_startswith (je_id : string) :
  startswith ("job_" +:+ je_id) "job_" = true
  ∧ str_from 4 ("job_" +:+ je_id) = je_id.
Proof. exact (app_prefix_str_from "job_" je_id). Qed.

Section ZombieUsers.

Variable JOB_STATUSES_TERMINATED : list string.
Variable env : Collaborators.

(** The job execution [je_id] is absent or has a terminal status. *)
Definition ended (je_id : string) : Prop :=
  job_execution_get (conductor env) je_id = None
  ∨ ∃ je status,
      job_execution_get (conductor env) je_id = Some je
      ∧ info je !! "status" = Some status
      ∧ status ∈ JOB_STATUSES_TERMINATED.

(** The user's name is [job_] followed by the id of a job execution
    that is absent or has a terminal status. *)
Definition zombie (u : User) : Prop :=
  ∃ je_id, user_name u = "job_" +:+ je_id ∧ ended je_id.

(** Every job execution carries a status. *)
Definition statuses_known : Prop :=
  map_Forall (λ _ je, is_Some (info je !! "status"))
             (job_executions (conductor env)).

Lemma zombie_code (u : User) :
  zombie u
  ↔ startswith (user_name u) "job_" = true ∧ ended (str_from 4 (user_name u)).
Proof.
  split.
  - intros (je_id & Hname & Hended). rewrite Hname.
    destruct (job_startswith je_id) as [-> ->]. done.
  - intros [Hstart Hended]. exists (str_from 4 (user_name u)).
    split; [by apply startswith_job | done].
Qed.

Lemma user_body (u : User) (w : world) :
  statuses_known →
  ∃ new,
    check_zombie_proxy_user JOB_STATUSES_TERMINATED env u w
    = (recorded w new, Ok tt)
    ∧ ((zombie u ∧ new = [EvProxyUserDelete (user_id u)])
       ∨ (¬ zombie u ∧ new = [])).
Proof.
  intros Hknown. unfold check_zombie_proxy_user.
  destruct (startswith (user_name u) "job_") eqn:Hstart.
  - destruct (job_execution_get (conductor env) (str_from 4 (user_name u)))
      as [je|] eqn:Hje.
    + destruct (Hknown _ _ Hje) as [status Hstatus].
      unfold bind, dict_get. rewrite Hstatus. unfold ret.
      destruct (str_in status JOB_STATUSES_TERMINATED) eqn:Hin.
      * exists [EvProxyUserDelete (user_id u)]. split; [reflexivity|].
        left. split; [|done]. apply zombie_code. split; [done|].
        right. exists je, status. by apply str_in_true in Hin.
      * exists []. split; [by rewrite recorded_nil|].
        right. split; [|done]. intros [_ Hended]%zombie_code.
        apply str_in_false in Hin.
        destruct Hended as [Hnone|(je' & status' & Hje' & Hstatus' & Hin')];
          congruence.
    + exists [EvProxyUserDelete (user_id u)]. split; [reflexivity|].
      left. split; [|done]. apply zombie_code. split; [done|]. by left.
  - exists []. split; [by rewrite recorded_nil|].
    right. split; [|done]. intros [Hstart' _]%zombie_code. congruence.
Qed.

Lemma users_loop (l : list User) :
  statuses_known →
  ∀ w, ∃ new,
    for_each l (check_zombie_proxy_user JOB_STATUSES_TERMINATED env) w
    = (recorded w new, Ok tt)
    ∧ ∀ e, e ∈ new
           ↔ ∃ u, u ∈ l ∧ zombie u ∧ e = EvProxyUserDelete (user_id u).
Proof.
  intros Hknown. induction l as [|x l IH]; intros w.
  - exists []. split; [simpl; by rewrite recorded_nil|].
    intros e; split; [by intros ?%elem_of_nil|].
    by intros (u & ?%elem_of_nil & _).
  - rewrite for_each_cons.
    destruct (user_body x w Hknown) as (new1 & -> & Hx).
    destruct (IH (recorded w new1)) as (new & -> & Hnew).
    exists (new1 ++ new). split; [by rewrite recorded_app|].
    intros e. rewrite elem_of_app, Hnew. split.
    + intros [He|(u & Hu & Hz & He)].
      * destruct Hx as [[Hz ->]|[_ ->]]; [|by apply elem_of_nil in He].
        apply list_elem_of_singleton in He.
        exists x. split; [apply list_elem_of_here|done].
      * exists u. split; [by apply list_elem_of_further|done].
    + intros (u & [->|Hu]%elem_of_cons & Hz & ->).
      * left. destruct Hx as [[_ ->]|[Hnz _]]; [|done].
        apply list_elem_of_here.
      * right. by exists u.
Qed.

End ZombieUsers.

(** C7, as the code has it.  With every job execution carrying a status
    and user ids distinct, a cycle returns normally with the context
    reset, the calls
    it made are deletions of listed users, and a listed user is deleted
    exactly when its name is [job_] followed by the id of a job execution
    that is absent or has a terminal status. *)
Theorem check_for_zombie_proxy_users_deletes
    (JOB_STATUSES_TERMINATED : list string) (env : Collaborators)
    (w : world) :
  statuses_known env →
  NoDup (map user_id (proxy_domain_users_list env)) →
  ∃ new,
    check_for_zombie_proxy_users JOB_STATUSES_TERMINATED env w
    = (mkWorld None (clock w) (calls w ++ new), Ok tt)
    ∧ (∀ u, u ∈ proxy_domain_users_list env →
            (EvProxyUserDelete (user_id u) ∈ new
             ↔ zombie JOB_STATUSES_TERMINATED env u))
    ∧ (∀ e, e ∈ new →
            ∃ u, u ∈ proxy_domain_users_list env
                 ∧ e = EvProxyUserDelete (user_id u)).
Proof.
  intros Hknown Hids.
  destruct (users_loop JOB_STATUSES_TERMINATED env
              (proxy_domain_users_list env) Hknown
              (mkWorld (Some AdminContext) (clock w) (calls w)))
    as (new & Hrun & Hnew).
  exists new. split; [|split].
  - transitivity
      (match for_each (proxy_domain_users_list env)
               (check_zombie_proxy_user JOB_STATUSES_TERMINATED env)
               (mkWorld (Some AdminContext) (clock w) (calls w)) with
       | (w', Ok _) => set_ctx None w'
       | (w', Raise e) => (w', Raise e)
       end); [reflexivity|].
    rewrite Hrun. reflexivity.
  - intros u Hu. rewrite Hnew. split.
    + intros (u' & Hu' & Hz & [= Hid]).
      assert (u' = u) as ->; [|done].
      by apply (NoDup_map_inj user_id (proxy_domain_users_list env)).
    + intros Hz. by exists u.
  - intros e (u & Hu & _ & ->)%Hnew. by exists u.
Qed.

(** [edp.JOB_STATUSES_TERMINATED] as Sahara defines it. *)
Definition terminated_statuses : list string :=
  ["DONEWITHERROR"; "FAILED"; "KILLED"; "SUCCEEDED"].

Lemma check_for_zombie_proxy_users_deletes_witness :
  ∃ new,
    check_for_zombie_proxy_users terminated_statuses env_db at_90s
    = (mkWorld None 90000000 new, Ok tt)
    ∧ (∀ u, u ∈ proxy_domain_users_list env_db →
            (EvProxyUserDelete (user_id u) ∈ new
             ↔ zombie terminated_statuses env_db u))
    ∧ (∀ e, e ∈ new →
            ∃ u, u ∈ proxy_domain_users_list env_db
                 ∧ e = EvProxyUserDelete (user_id u)).
Proof.
  apply (check_for_zombie_proxy_users_deletes
           terminated_statuses env_db at_90s).
  - refine (bool_decide_eq_true_1 _ _); vm_compute; reflexivity.
  - refine (bool_decide_eq_true_1 _ _); reflexivity.
Defined.

Example check_for_zombie_proxy_users_run :
  check_for_zombie_proxy_users terminated_statuses env_db at_90s
  = (mkWorld None 90000000 [EvProxyUserDelete "u-2"; EvProxyUserDelete "u-3"],
     Ok tt).
Proof. vm_compute. reflexivity. Qed.

End PeriodicProofs.


(** * Further properties of [cloudera_utils.py] *)

Module ClouderaUtilsMore.
Import ClouderaUtils ClouderaUtilsProofs.

(** ** [cloudera_cmd] over a whole run *)

(** A command on which the wrapper raises: it failed, and [children] is
    [None] or holds a failed child. *)
Definition offending (cmd : ApiCommand) : Prop :=
  success cmd = false
  ∧ match children cmd with
    | None => True
    | Some cs => Exists (λ c, success c = false) cs
    end.

(** The calls made for waiting on [cmds] one after the other. *)
Definition waits (cmds : list ApiCommand) : list event :=
  map (λ cmd, EvWait (cmd_id cmd)) cmds.

Lemma check_children_outcome (cs : list ApiCommand) (w : world) :
  (Forall (λ c, success c = true) cs ∧ check_children cs w = (w, Ok tt))
  ∨ (Exists (λ c, success c = false) cs
     ∧ ∃ msg, check_children cs w = (w, Raise (HadoopProvisionError msg))).
Proof.
  induction cs as [|c cs [[Hall Hrun]|[Hex (msg & Hrun)]]]; simpl.
  - left. split; [constructor | reflexivity].
  - destruct (success c) eqn:Hc; simpl.
    + left. split; [by constructor | exact Hrun].
    + right. split; [by apply Exists_cons_hd|]. by eexists.
  - destruct (success c) eqn:Hc; simpl.
    + right. split; [by apply Exists_cons_tl|]. by eexists.
    + right. split; [by apply Exists_cons_hd|]. by eexists.
Qed.

Lemma wait_and_check_outcome (cmd : ApiCommand) (w : world) :
  (¬ offending cmd ∧ wait_and_check cmd w = (waited cmd w, Ok tt))
  ∨ (offending cmd
     ∧ ∃ msg, wait_and_check cmd w
              = (waited cmd w, Raise (HadoopProvisionError msg))).
Proof.
  unfold wait_and_check, wait, bind, emit, ret, offending; simpl.
  fold (waited cmd w).
  destruct (success cmd) eqn:Hs; simpl.
  - left. split; [by intros [? _] | reflexivity].
  - destruct (children cmd) as [cs|] eqn:Hcs.
    + destruct (check_children_outcome cs (waited cmd w))
        as [[Hall Hrun]|[Hex Hrun]].
      * left. split; [|exact Hrun]. intros [_ Hex].
        apply Exists_exists in Hex as (c & Hc & Hfalse).
        rewrite Forall_forall in Hall. specialize (Hall c Hc). congruence.
      * right. by split.
    + right. split; [done|]. by eexists.
Qed.

Lemma waited_logged (cmd : ApiCommand) (w : world) :
  waited cmd w = logged w (waits [cmd]).
Proof. reflexivity. Qed.

Lemma cloudera_cmd_quiet (cmds : list ApiCommand) :
  ∀ w, Forall (λ cmd, ¬ offending cmd) cmds →
       cloudera_cmd cmds w = (logged w (waits cmds), Ok tt).
Proof.
  induction cmds as [|cmd cmds IH]; intros w Hall.
  - simpl. by rewrite logged_nil.
  - apply Forall_cons in Hall as [Hcmd Hall].
    unfold cloudera_cmd in *. rewrite for_each_cons.
    destruct (wait_and_check_outcome cmd w) as [[_ ->]|[Hoff _]]; [|done].
    rewrite IH by done. by rewrite waited_logged, logged_logged.
Qed.

(** X1.  The wrapper returns normally exactly when none of the commands
    is one it raises on (failed with [children = None], or failed with a
    failed child); it has then waited on every command once, in order,
    and has done nothing else. *)
Theorem cloudera_cmd_returns_iff (cmds : list ApiCommand) (w : world) :
  ((cloudera_cmd cmds w).2 = Ok tt ↔ Forall (λ cmd, ¬ offending cmd) cmds)
  ∧ ((cloudera_cmd cmds w).2 = Ok tt →
     (cloudera_cmd cmds w).1 = logged w (waits cmds)).
Proof.
  assert (Hiff : ∀ w, (cloudera_cmd cmds w).2 = Ok tt
                      → Forall (λ cmd, ¬ offending cmd) cmds).
  { clear w. induction cmds as [|cmd cmds IH]; intros w Hok; [constructor|].
    unfold cloudera_cmd in *. rewrite for_each_cons in Hok.
    destruct (wait_and_check_outcome cmd w)
      as [[Hquiet Hrun]|[_ (msg & Hrun)]]; rewrite Hrun in Hok.
    - constructor; [done|]. by apply (IH (waited cmd w)).
    - discriminate Hok. }
  split; [split|].
  - apply Hiff.
  - intros Hall. by rewrite cloudera_cmd_quiet.
  - intros Hok. rewrite cloudera_cmd_quiet; [done|]. by apply (Hiff w).
Qed.

(** X2.  The wrapper stops at the first command it raises on: the
    commands before it and that command have been waited on, the
    commands after it never are, and what is raised is a
    [HadoopProvisionError]. *)
Theorem cloudera_cmd_stops_at_first_offender (before after : list ApiCommand)
    (cmd : ApiCommand) (w : world) :
  Forall (λ c, ¬ offending c) before →
  offending cmd →
  ∃ msg,
    cloudera_cmd (before ++ cmd :: after) w
    = (logged w (waits (before ++ [cmd])), Raise (HadoopProvisionError msg)).
Proof.
  intros Hbefore Hcmd. unfold cloudera_cmd.
  rewrite for_each_app. fold (cloudera_cmd before).
  rewrite cloudera_cmd_quiet by done. rewrite for_each_cons.
  destruct (wait_and_check_outcome cmd (logged w (waits before)))
    as [[Hquiet _]|[_ (msg & ->)]]; [done|].
  exists msg. rewrite waited_logged, logged_logged.
  unfold waits. by rewrite map_app.
Qed.

Lemma cloudera_cmd_stops_at_first_offender_witness :
  ∃ msg,
    cloudera_cmd ([ok_cmd; failed_children_ok] ++ failed_alone :: [ok_cmd]) w0
    = (logged w0 (waits ([ok_cmd; failed_children_ok] ++ [failed_alone])),
       Raise (HadoopProvisionError msg)).
Proof.
  apply (cloudera_cmd_stops_at_first_offender
           [ok_cmd; failed_children_ok] [ok_cmd] failed_alone w0).
  - repeat constructor.
    + intros [H _]. discriminate H.
    + intros [_ H]. simpl in H. apply Exists_cons in H as [H|H];
        [discriminate H | by apply Exists_nil in H].
  - split; [reflexivity | exact I].
Defined.

(** ** [get_service_by_role]: what can come out *)

Definition service_names : list string :=
  [HDFS_SERVICE_NAME; YARN_SERVICE_NAME; OOZIE_SERVICE_NAME;
   HIVE_SERVICE_NAME; HUE_SERVICE_NAME; SPARK_SERVICE_NAME;
   ZOOKEEPER_SERVICE_NAME; HBASE_SERVICE_NAME].

Lemma table_lookup_Some (process name : string)
    (table : list (string * string)) :
  table_lookup process table = Some name → (process, name) ∈ table.
Proof.
  induction table as [|[p s] table IH]; simpl; [discriminate|].
  destruct (decide (p = process)) as [->|Hne].
  - intros [= ->]. apply list_elem_of_here.
  - intros H. by apply list_elem_of_further, IH.
Qed.

Lemma service_table_names (process name : string) :
  (process, name) ∈ service_table → name ∈ service_names.
Proof.
  unfold service_table. intros H.
  repeat match type of H with
    | _ ∈ _ :: _ =>
        apply elem_of_cons in H as [[= -> ->]|H];
        [refine (bool_decide_eq_true_1 _ _); reflexivity|]
    end.
  by apply elem_of_nil in H.
Qed.

(** The cluster whose Cloudera Manager is asked: the one given, else the
    one of the instance. *)
Definition target (cluster : option Cluster) (instance : option Instance)
  : option Cluster :=
  match cluster with
  | Some c => Some c
  | None => (λ i, ng_cluster (node_group i)) <$> instance
  end.

(** X3.  Whatever the arguments, [get_service_by_role] either returns
    one of the eight named services, on the Cloudera cluster of the
    given cluster (of the instance's cluster when no cluster is given),
    or raises a [ValueError]; with neither a cluster nor an instance it
    raises the missing-argument [ValueError] whatever the process. *)
Theorem get_service_by_role_range (process : string)
    (cluster : option Cluster) (instance : option Instance) :
  match get_service_by_role process cluster instance with
  | Ok service =>
      svc_name service ∈ service_names
      ∧ ∃ c, target cluster instance = Some c
             ∧ svc_cluster service = get_cloudera_cluster c
  | Raise e =>
      (target cluster instance = None
       ∧ e = ValueError "'cluster' or 'instance' argument missed")
      ∨ (is_Some (target cluster instance) ∧ e = unsupported process)
  end.
Proof.
  assert (Hroute : ∀ c,
             match route (get_cloudera_cluster c) process with
             | Ok service =>
                 svc_name service ∈ service_names
                 ∧ svc_cluster service = get_cloudera_cluster c
             | Raise e => e = unsupported process
             end).
  { intros c. unfold route.
    destruct (table_lookup process service_table) as [name|] eqn:Hname;
      [|done].
    split; [|done]. simpl.
    by apply (service_table_names process), table_lookup_Some. }
  destruct cluster as [c|]; [|destruct instance as [i|]].
  - rewrite get_service_by_role_route. specialize (Hroute c).
    destruct (route (get_cloudera_cluster c) process) as [service|e].
    + destruct Hroute. split; [done|]. by exists c.
    + right. by split.
  - change (get_service_by_role process None (Some i))
      with (get_service_by_role process (Some (ng_cluster (node_group i)))
              None).
    rewrite get_service_by_role_route.
    specialize (Hroute (ng_cluster (node_group i))).
    destruct (route (get_cloudera_cluster (ng_cluster (node_group i)))
                process) as [service|e].
    + destruct Hroute. split; [done|]. by eexists.
    + right. by split.
  - left. by split.
Qed.

(** ** Loops of calls *)

(** A loop whose body makes one call and returns or raises what the
    call answers: it goes through the list while the calls are answered
    normally. *)
Lemma for_each_calls {A} (call : A → event) (answer : A → result unit)
    (body : A → M world unit) (xs : list A) :
  (∀ x w, body x w = (logged w [call x], answer x)) →
  ∀ w, Forall (λ x, answer x = Ok tt) xs →
       for_each xs body w = (logged w (map call xs), Ok tt).
Proof.
  intros Hbody. induction xs as [|x xs IH]; intros w Hall.
  - simpl. by rewrite logged_nil.
  - apply Forall_cons in Hall as [Hx Hall].
    rewrite for_each_cons, Hbody, Hx, IH by done.
    by rewrite logged_logged.
Qed.

Lemma for_each_calls_raise {A} (call : A → event) (answer : A → result unit)
    (body : A → M world unit) (before after : list A) (x : A) (e : exn) :
  (∀ x w, body x w = (logged w [call x], answer x)) →
  Forall (λ x, answer x = Ok tt) before →
  answer x = Raise e →
  ∀ w, for_each (before ++ x :: after) body w
       = (logged w (map call (before ++ [x])), Raise e).
Proof.
  intros Hbody Hbefore Hx w.
  rewrite for_each_app, (for_each_calls call answer) by done.
  rewrite for_each_cons, Hbody, Hx, logged_logged.
  by rewrite map_app.
Qed.

(** ** [decommission_nodes] *)

Lemma delete_role_call (mgr : Manager) (service : ApiService)
    (role_name : string) (w : world) :
  delete_role mgr service role_name w
  = (logged w [EvDeleteRole service role_name],
     mgr_delete_role mgr service role_name).
Proof. reflexivity. Qed.

Lemma decommission_nodes_run (mgr : Manager) (cluster : Cluster)
    (process name : string) (role_names : list string) (w : world) :
  (process, name) ∈ service_table →
  let service := get_service (get_cloudera_cluster cluster) name in
  decommission_nodes mgr cluster process role_names w
  = for_each role_names (delete_role mgr service)
      (logged w [EvDecommission service role_names;
                 EvWait (cmd_id (mgr_decommission mgr service role_names))]).
Proof.
  intros Hname service. unfold decommission_nodes.
  rewrite get_service_by_role_route. unfold route.
  rewrite (table_lookup_service_table _ _ Hname).
  unfold bind, lift_result, decommission, wait, emit, ret, logged; simpl.
  by rewrite <- app_assoc.
Qed.

(** X4.  For a process outside the table, [decommission_nodes] raises
    the unsupported-process [ValueError] when it resolves the service:
    no decommission is requested, no command is waited on and no role is
    deleted.  (Obtaining the handle of the cluster, which
    [get_service_by_role] does first, is not among the calls of the
    trace.) *)
Theorem decommission_nodes_unsupported (mgr : Manager) (cluster : Cluster)
    (process : string) (role_names : list string) (w : world) :
  process ∉ service_table.*1 →
  decommission_nodes mgr cluster process role_names w
  = (w, Raise (unsupported process)).
Proof.
  intros Hout. unfold decommission_nodes.
  rewrite get_service_by_role_route. unfold route.
  by rewrite (proj2 (table_lookup_None _ _) Hout).
Qed.

Lemma decommission_nodes_unsupported_witness :
  decommission_nodes mgr_decommission_fails cluster0 "IMPALAD" ["imp-1"] w0
  = (w0, Raise (unsupported "IMPALAD")).
Proof.
  apply (decommission_nodes_unsupported mgr_decommission_fails cluster0
           "IMPALAD" ["imp-1"] w0).
  refine (bool_decide_eq_false_1 _ _); reflexivity.
Defined.

(** X5.  For a tabled process and role deletions that go through,
    [decommission_nodes] asks for one decommission of the whole batch,
    waits on that command, then deletes the roles one by one in the order
    given, and returns normally. *)
Theorem decommission_nodes_batch_then_deletes (mgr : Manager)
    (cluster : Cluster) (process name : string) (role_names : list string)
    (w : world) :
  (process, name) ∈ service_table →
  let service := get_service (get_cloudera_cluster cluster) name in
  Forall (λ r, mgr_delete_role mgr service r = Ok tt) role_names →
  decommission_nodes mgr cluster process role_names w
  = (logged w
       (EvDecommission service role_names
        :: EvWait (cmd_id (mgr_decommission mgr service role_names))
        :: map (EvDeleteRole service) role_names),
     Ok tt).
Proof.
  intros Hname service Hall.
  rewrite (decommission_nodes_run mgr cluster process name) by done.
  rewrite (for_each_calls (EvDeleteRole service)
             (mgr_delete_role mgr service)) by (done || apply delete_role_call).
  by rewrite logged_logged.
Qed.

Definition mgr_fine : Manager :=
  mkManager (λ _, [host_m; host_a; host_b]) (λ _, 0%Z)
            (λ _, Ok tt) (λ _, Ok tt) (λ _ _, ok_cmd) (λ _ _, Ok tt).

Lemma decommission_nodes_batch_then_deletes_witness :
  decommission_nodes mgr_fine cluster0 "DATANODE" ["dn-1"; "dn-2"] w0
  = (mkWorld 0 [EvDecommission hdfs0 ["dn-1"; "dn-2"]; EvWait 1;
                EvDeleteRole hdfs0 "dn-1"; EvDeleteRole hdfs0 "dn-2"],
     Ok tt).
Proof.
  apply (decommission_nodes_batch_then_deletes mgr_fine cluster0
           "DATANODE" "hdfs01" ["dn-1"; "dn-2"] w0).
  - refine (bool_decide_eq_true_1 _ _); reflexivity.
  - repeat constructor.
Defined.

(** X6.  When a role deletion fails, [decommission_nodes] raises that
    failure at once: the roles before it are deleted and the roles after
    it are left in place, although the whole batch was decommissioned. *)
Theorem decommission_nodes_delete_failure (mgr : Manager)
    (cluster : Cluster) (process name : string)
    (before after : list string) (role : string) (e : exn) (w : world) :
  (process, name) ∈ service_table →
  let service := get_service (get_cloudera_cluster cluster) name in
  let role_names := before ++ role :: after in
  Forall (λ r, mgr_delete_role mgr service r = Ok tt) before →
  mgr_delete_role mgr service role = Raise e →
  decommission_nodes mgr cluster process role_names w
  = (logged w
       (EvDecommission service role_names
        :: EvWait (cmd_id (mgr_decommission mgr service role_names))
        :: map (EvDeleteRole service) (before ++ [role])),
     Raise e).
Proof.
  intros Hname service role_names Hall Hrole.
  rewrite (decommission_nodes_run mgr cluster process name) by done.
  unfold role_names.
  rewrite (for_each_calls_raise (EvDeleteRole service)
             (mgr_delete_role mgr service) _ before after role e)
    by (done || apply delete_role_call).
  by rewrite logged_logged.
Qed.

(** A manager on which role [dn-2] cannot be deleted. *)
Definition mgr_role_stuck : Manager :=
  mkManager (λ _, []) (λ _, 0%Z) (λ _, Ok tt) (λ _, Ok tt) (λ _ _, ok_cmd)
            (λ _ role, if decide (role = "dn-2")
                       then Raise (RemoteError "Role is running")
                       else Ok tt).

Lemma decommission_nodes_delete_failure_witness :
  decommission_nodes mgr_role_stuck cluster0 "DATANODE"
                     (["dn-1"] ++ "dn-2" :: ["dn-3"]) w0
  = (mkWorld 0 [EvDecommission hdfs0 ["dn-1"; "dn-2"; "dn-3"]; EvWait 1;
                EvDeleteRole hdfs0 "dn-1"; EvDeleteRole hdfs0 "dn-2"],
     Raise (RemoteError "Role is running")).
Proof.
  apply (decommission_nodes_delete_failure mgr_role_stuck cluster0
           "DATANODE" "hdfs01" ["dn-1"] ["dn-3"] "dn-2"
           (RemoteError "Role is running") w0).
  - refine (bool_decide_eq_true_1 _ _); reflexivity.
  - repeat constructor.
  - reflexivity.
Defined.

(** ** [delete_instances] *)

Lemma hosts_loop_touches (mgr : Manager) (cluster : Cluster)
    (instances : list Instance) (hosts : list ApiHost) :
  let cm := get_cloudera_cluster cluster in
  ∀ w, ∃ new,
    (for_each hosts (delete_instance_host mgr cm (map fqdn instances)) w).1
    = logged w new
    ∧ ∀ e, e ∈ new →
           ∃ host, host ∈ hosts ∧ hostname host ∈ map fqdn instances
                   ∧ e ∈ host_steps cm host.
Proof.
  intros cm. induction hosts as [|host hosts IH]; intros w.
  - exists []. split; [simpl; by rewrite logged_nil|].
    by intros e ?%elem_of_nil.
  - rewrite for_each_cons.
    destruct (decide (hostname host ∈ map fqdn instances)) as [Hin|Hout].
    + rewrite (delete_instance_host_run mgr cluster instances) by done.
      fold cm.
      assert (Hhere : ∀ e, e ∈ host_steps cm host →
                ∃ h, h ∈ host :: hosts ∧ hostname h ∈ map fqdn instances
                     ∧ e ∈ host_steps cm h).
      { intros e He. exists host. split; [apply list_elem_of_here|done]. }
      destruct (mgr_remove_host mgr (hostId host)) as [[]|e1].
      * destruct (mgr_delete_host mgr (hostId host)) as [[]|e2].
        -- destruct (IH (logged w (host_steps cm host))) as (new & Hrun & Hnew).
           exists (host_steps cm host ++ new).
           split; [by rewrite Hrun, logged_logged|].
           intros e [He|He]%elem_of_app; [by apply Hhere|].
           destruct (Hnew e He) as (h & Hh & Hname & Hstep).
           exists h. split; [by apply list_elem_of_further|done].
        -- exists (host_steps cm host). split; [done|]. apply Hhere.
      * exists [EvRemoveHost (cm_name cm) (hostId host)]. split; [done|].
        intros e ->%list_elem_of_singleton. apply Hhere, list_elem_of_here.
    + rewrite (delete_instance_host_skip mgr cluster instances) by done.
      destruct (IH w) as (new & Hrun & Hnew).
      exists new. split; [done|].
      intros e He. destruct (Hnew e He) as (h & Hh & Hname & Hstep).
      exists h. split; [by apply list_elem_of_further|done].
Qed.

(** X7.  Whatever Cloudera Manager answers, after the inventory request
    [delete_instances] only issues [remove_host] and [delete_host] calls
    for hosts of that inventory whose hostname is the fully-qualified
    name of one of the given instances: no other host is ever touched. *)
Theorem delete_instances_only_matching (mgr : Manager) (cluster : Cluster)
    (instances : list Instance) (w : world) :
  ∃ new,
    (delete_instances mgr cluster instances w).1
    = logged (fetched mgr w) new
    ∧ ∀ e, e ∈ new →
           ∃ host, host ∈ mgr_hosts mgr (clock w)
                   ∧ hostname host ∈ map fqdn instances
                   ∧ e ∈ host_steps (get_cloudera_cluster cluster) host.
Proof.
  apply (hosts_loop_touches mgr cluster instances (mgr_hosts mgr (clock w))
           (fetched mgr w)).
Qed.

(** X8.  When no host of the inventory bears the name of one of the
    instances (in particular for an empty list of instances),
    [delete_instances] fetches the inventory, removes nothing and returns
    normally. *)
Theorem delete_instances_nothing_to_delete (mgr : Manager)
    (cluster : Cluster) (instances : list Instance) (w : world) :
  (∀ host, host ∈ mgr_hosts mgr (clock w) →
           hostname host ∉ map fqdn instances) →
  delete_instances mgr cluster instances w = (fetched mgr w, Ok tt).
Proof.
  intros Hnone.
  assert (Hempty : matching instances (mgr_hosts mgr (clock w)) = []).
  { unfold matching. induction (mgr_hosts mgr (clock w)) as [|h hs IH];
      [done|].
    rewrite filter_cons_False by (apply Hnone, list_elem_of_here).
    apply IH. intros host Hhost. by apply Hnone, list_elem_of_further. }
  transitivity
    (for_each (mgr_hosts mgr (clock w))
       (delete_instance_host mgr (get_cloudera_cluster cluster)
          (map fqdn instances))
       (fetched mgr w)); [reflexivity|].
  rewrite (hosts_loop_all mgr cluster instances); rewrite Hempty.
  - simpl. by rewrite logged_nil.
  - constructor.
Qed.

Lemma delete_instances_nothing_to_delete_witness :
  delete_instances mgr_fine cluster0 [] w0
  = (mkWorld 0 [EvGetAllHosts], Ok tt).
Proof.
  apply (delete_instances_nothing_to_delete mgr_fine cluster0 [] w0).
  intros host _. apply not_elem_of_nil.
Defined.

Lemma for_each_ext {W A} (f g : A → M W unit) (xs : list A) :
  (∀ x w, f x w = g x w) → ∀ w, for_each xs f w = for_each xs g w.
Proof.
  intros Hfg. induction xs as [|x xs IH]; intros w; [reflexivity|].
  rewrite !for_each_cons, Hfg.
  destruct (g x w) as [w' [[]|e]]; [apply IH | reflexivity].
Qed.

(** X9.  [delete_instances] depends on the instances only through the
    set of their fully-qualified names: two lists of instances with the
    same names, in any order and with any repetition, give the same calls
    and the same outcome. *)
Theorem delete_instances_same_names (mgr : Manager) (cluster : Cluster)
    (instances instances' : list Instance) (w : world) :
  (∀ name, name ∈ map fqdn instances ↔ name ∈ map fqdn instances') →
  delete_instances mgr cluster instances w
  = delete_instances mgr cluster instances' w.
Proof.
  intros Hsame. unfold delete_instances, bind.
  destruct (get_all_hosts mgr w) as [w1 [hosts|e]]; [|reflexivity].
  apply for_each_ext. intros host w2. unfold delete_instance_host, str_in.
  by rewrite (bool_decide_ext _ _ (Hsame (hostname host))).
Qed.

Lemma delete_instances_same_names_witness :
  delete_instances mgr_fine cluster0 [inst_a; inst_b] w0
  = delete_instances mgr_fine cluster0 [inst_b; inst_a; inst_b] w0.
Proof.
  apply (delete_instances_same_names mgr_fine cluster0
           [inst_a; inst_b] [inst_b; inst_a; inst_b] w0).
  intros name. simpl. rewrite !elem_of_cons. tauto.
Defined.

(** ** [await_agents]: when it is over *)

Lemma poll_time_succ (mgr : Manager) (k : nat) :
  ∀ t, poll_time mgr t (S k)
       = (poll_time mgr t k + mgr_latency mgr (poll_time mgr t k)
          + 5 * 1000000)%Z.
Proof.
  induction k as [|k IH]; intros t; [reflexivity|].
  change (poll_time mgr t (S (S k)))
    with (poll_time mgr (t + mgr_latency mgr t + 5 * 1000000)%Z (S k)).
  by rewrite IH.
Qed.

(** X10.  With requests answered within [L] microseconds, and at least
    61 rounds allowed, [await_agents] on a non-empty list is over in
    time: it returns normally less than 300 seconds plus [L] after its
    start, or raises the agents-failed error at least 300 seconds and
    less than 305 seconds plus [L] after its start. *)
Theorem await_agents_deadline (mgr : Manager) (instances : list Instance)
    (w : world) (L : Z) (fuel : nat) :
  instances ≠ [] →
  (∀ t, (0 ≤ mgr_latency mgr t ≤ L)%Z) →
  (60 < fuel)%nat →
  ∃ w' r,
    await_agents fuel mgr instances w = Some (w', r)
    ∧ ((r = Ok tt ∧ (0 ≤ clock w' - clock w < timeout_us + L)%Z)
       ∨ (r = Raise agents_failed
          ∧ (timeout_us ≤ clock w' - clock w
             < timeout_us + L + 5 * 1000000)%Z)).
Proof.
  intros Hne Hlat Hfuel.
  assert (Hlat0 : ∀ t, (0 ≤ mgr_latency mgr t)%Z)
    by (intros t; apply Hlat).
  destruct instances as [|first others]; [done|].
  set (instances := first :: others) in *.
  change (await_agents fuel mgr instances w)
    with (await_loop fuel mgr instances (clock w) w).
  destruct (first_timeout mgr Hlat0 (clock w) 60 (clock w))
    as (n & Hn & Hout & Hbefore); [unfold timeout_us, timeout; lia|].
  destruct (first_true_below
              (λ j, registeredb mgr instances (poll_time mgr (clock w) j)) n)
    as [Hnone|(k & Hk & Hreg & Hfirst)].
  - rewrite (await_loop_times_out mgr instances (clock w) n);
      [| lia | done | | done].
    + eexists _, _. split; [reflexivity|]. right. split; [done|].
      simpl. split; [done|].
      destruct n as [|m]; [simpl in Hout; unfold timeout_us, timeout in Hout;
                           lia|].
      rewrite poll_time_succ.
      specialize (Hbefore m ltac:(lia)).
      specialize (Hlat (poll_time mgr (clock w) m)). lia.
    + intros j Hj. apply registeredb_false, Hnone, Hj.
  - rewrite (await_loop_connects mgr instances (clock w) k);
      [| lia | | | by apply registeredb_true].
    + eexists _, _. split; [reflexivity|]. left. split; [done|].
      simpl. specialize (Hbefore k Hk).
      pose proof (poll_time_le mgr Hlat0 k (clock w)).
      specialize (Hlat (poll_time mgr (clock w) k)). lia.
    + intros j Hj. apply Hbefore. lia.
    + intros j Hj. apply registeredb_false, Hfirst, Hj.
Qed.

(** A manager that takes 2 seconds to answer and never sees [host-b]. *)
Definition mgr_slow : Manager :=
  mkManager (λ _, [host_a]) (λ _, 2000000%Z) (λ _, Ok tt) (λ _, Ok tt)
            (λ _ _, ok_cmd) (λ _ _, Ok tt).

Lemma await_agents_deadline_witness :
  ∃ w' r,
    await_agents 61 mgr_slow [inst_a; inst_b] w0 = Some (w', r)
    ∧ ((r = Ok tt ∧ (0 ≤ clock w' - clock w0 < timeout_us + 2000000)%Z)
       ∨ (r = Raise agents_failed
          ∧ (timeout_us ≤ clock w' - clock w0
             < timeout_us + 2000000 + 5 * 1000000)%Z)).
Proof.
  apply (await_agents_deadline mgr_slow [inst_a; inst_b] w0 2000000 61).
  - discriminate.
  - intros t. simpl. lia.
  - lia.
Defined.

Example await_agents_slow_manager :
  await_agents 61 mgr_slow [inst_a; inst_b] w0
  = Some (mkWorld 301000000 (polls 43), Raise agents_failed).
Proof. vm_compute. reflexivity. Qed.

End ClouderaUtilsMore.


(** * Further properties of [periodic.py] *)

Module PeriodicMore.
Import Periodic PeriodicProofs.

(** ** [terminate_unneeded_clusters]: the calls of a cycle *)

#[local] Instance unneeded_decision (conf : Conf) (env : Collaborators)
    (now : Z) (c : Cluster) : Decision (unneeded conf env now c).
Proof.
  unfold unneeded.
  destruct (Qlt_le_dec (delta_seconds (updated_at c) now)
              (inject_Z (min_transient_cluster_active_time conf)))
    as [Hlt|Hle].
  - right. intros (_ & _ & _ & Hle). by apply Qlt_not_le in Hlt.
  - destruct (decide (cluster_status c = "Active"
                      ∧ is_transient c = true
                      ∧ job_execution_count (conductor env) None
                          (cluster_id c) = 0%nat)) as [Hyes|Hno].
    + left. tauto.
    + right. tauto.
Defined.

Lemma clusters_loop_calls (conf : Conf) (env : Collaborators)
    (l : list Cluster) :
  ∀ w,
    for_each (filter (λ c, cluster_status c = "Active") l)
             (terminate_unneeded_cluster conf env) w
    = (recorded w (flat_map (termination_action conf)
                     (filter (unneeded conf env (clock w)) l)),
       Ok tt).
Proof.
  induction l as [|x l IH]; intros w.
  - simpl. by rewrite recorded_nil.
  - destruct (decide (cluster_status x = "Active")) as [Hactive|Hother].
    + rewrite filter_cons_True by done. rewrite for_each_cons.
      destruct (decide (unneeded conf env (clock w) x)) as [Hdue|Hnot].
      * rewrite cluster_body_acts by done.
        rewrite (filter_cons_True (unneeded conf env (clock w))) by done.
        rewrite IH. simpl. by rewrite recorded_app.
      * rewrite cluster_body_skips by done.
        rewrite (filter_cons_False (unneeded conf env (clock w))) by done.
        apply IH.
    + rewrite filter_cons_False by done.
      rewrite (filter_cons_False (unneeded conf env (clock w)))
        by (by intros [? _]).
      apply IH.
Qed.

Lemma cycle_calls (conf : Conf) (env : Collaborators) (w : world) :
  terminate_unneeded_clusters conf env w
  = (mkWorld None (clock w)
       (calls w
        ++ flat_map (termination_action conf)
             (filter (unneeded conf env (clock w))
                     (clusters (conductor env)))),
     Ok tt).
Proof.
  transitivity
    (match for_each (filter (λ c, cluster_status c = "Active")
                            (clusters (conductor env)))
                    (terminate_unneeded_cluster conf env)
                    (mkWorld (Some AdminContext) (clock w) (calls w)) with
     | (w', Ok _) => set_ctx None w'
     | (w', Raise e) => (w', Raise e)
     end); [reflexivity|].
  by rewrite clusters_loop_calls.
Qed.

(** X11.  The calls of a cycle are the termination actions of the
    clusters that pass the four guards, in the order of the conductor's
    table and with nothing in between: under identity API v3 each
    [ops.terminate_cluster] directly follows the
    [use_os_admin_auth_token] of the same cluster.  The cycle returns
    normally with the context reset. *)
Theorem terminate_unneeded_clusters_calls (conf : Conf)
    (env : Collaborators) (w : world) :
  terminate_unneeded_clusters conf env w
  = (mkWorld None (clock w)
       (calls w
        ++ flat_map (termination_action conf)
             (filter (unneeded conf env (clock w))
                     (clusters (conductor env)))),
     Ok tt).
Proof. apply cycle_calls. Qed.

(** X12.  What [ops.terminate_cluster] answers has no effect on a
    cycle: with the same configuration, conductor tables and starting
    world, a deployment on which terminations fail goes through the same
    calls and returns normally as one on which they succeed. *)
Theorem terminate_unneeded_clusters_isolated (conf : Conf)
    (env env' : Collaborators) (w : world) :
  conductor env = conductor env' →
  terminate_unneeded_clusters conf env w
  = terminate_unneeded_clusters conf env' w
  ∧ (terminate_unneeded_clusters conf env w).2 = Ok tt.
Proof.
  intros Hdb. rewrite !cycle_calls.
  split; [|reflexivity]. rewrite <- Hdb.
  do 4 f_equal. apply list_filter_iff. intros c.
  unfold unneeded. by rewrite Hdb.
Qed.

(** The deployment [env_db] with terminations that go through. *)
Definition env_db_terminates : Collaborators :=
  mkCollaborators db (Ok tt) (λ _, Ok tt) (proxy_domain_users_list env_db).

Lemma terminate_unneeded_clusters_isolated_witness :
  terminate_unneeded_clusters conf_v3 env_db at_90s
  = terminate_unneeded_clusters conf_v3 env_db_terminates at_90s
  ∧ (terminate_unneeded_clusters conf_v3 env_db at_90s).2 = Ok tt.
Proof.
  apply (terminate_unneeded_clusters_isolated conf_v3 env_db
           env_db_terminates at_90s).
  reflexivity.
Defined.

(** ** [check_for_zombie_proxy_users]: a job execution without status *)

(** The job execution the user's name refers to, if there is one,
    carries a status. *)
Definition status_known (env : Collaborators) (u : User) : Prop :=
  startswith (user_name u) "job_" = true →
  ∀ je, job_execution_get (conductor env) (str_from 4 (user_name u)) = Some je →
        is_Some (info je !! "status").

Lemma user_body_known (JOB_STATUSES_TERMINATED : list string)
    (env : Collaborators) (u : User) (w : world) :
  status_known env u →
  ∃ new,
    check_zombie_proxy_user JOB_STATUSES_TERMINATED env u w
    = (recorded w new, Ok tt)
    ∧ ((zombie JOB_STATUSES_TERMINATED env u
        ∧ new = [EvProxyUserDelete (user_id u)])
       ∨ (¬ zombie JOB_STATUSES_TERMINATED env u ∧ new = [])).
Proof.
  intros Hknown. unfold check_zombie_proxy_user.
  destruct (startswith (user_name u) "job_") eqn:Hstart.
  - destruct (job_execution_get (conductor env) (str_from 4 (user_name u)))
      as [je|] eqn:Hje.
    + destruct (Hknown Hstart _ Hje) as [status Hstatus].
      unfold bind, dict_get. rewrite Hstatus. unfold ret.
      destruct (str_in status JOB_STATUSES_TERMINATED) eqn:Hin.
      * exists [EvProxyUserDelete (user_id u)]. split; [reflexivity|].
        left. split; [|done]. apply zombie_code. split; [done|].
        right. exists je, status. by apply str_in_true in Hin.
      * exists []. split; [by rewrite recorded_nil|].
        right. split; [|done]. intros [_ Hended]%zombie_code.
        apply str_in_false in Hin.
        destruct Hended as [Hnone|(je' & status' & Hje' & Hstatus' & Hin')];
          congruence.
    + exists [EvProxyUserDelete (user_id u)]. split; [reflexivity|].
      left. split; [|done]. apply zombie_code. split; [done|]. by left.
  - exists []. split; [by rewrite recorded_nil|].
    right. split; [|done]. intros [Hstart' _]%zombie_code. congruence.
Qed.

Lemma users_loop_known (JOB_STATUSES_TERMINATED : list string)
    (env : Collaborators) (l : list User) :
  Forall (status_known env) l →
  ∀ w, ∃ new,
    for_each l (check_zombie_proxy_user JOB_STATUSES_TERMINATED env) w
    = (recorded w new, Ok tt)
    ∧ ∀ e, e ∈ new
           ↔ ∃ u, u ∈ l ∧ zombie JOB_STATUSES_TERMINATED env u
                  ∧ e = EvProxyUserDelete (user_id u).
Proof.
  induction 1 as [|x l Hx _ IH]; intros w.
  - exists []. split; [simpl; by rewrite recorded_nil|].
    intros e; split; [by intros ?%elem_of_nil|].
    by intros (u & ?%elem_of_nil & _).
  - rewrite for_each_cons.
    destruct (user_body_known JOB_STATUSES_TERMINATED env x w Hx)
      as (new1 & -> & Hbody).
    destruct (IH (recorded w new1)) as (new & -> & Hnew).
    exists (new1 ++ new). split; [by rewrite recorded_app|].
    intros e. rewrite elem_of_app, Hnew. split.
    + intros [He|(u & Hu & Hz & He)].
      * destruct Hbody as [[Hz ->]|[_ ->]]; [|by apply elem_of_nil in He].
        apply list_elem_of_singleton in He.
        exists x. split; [apply list_elem_of_here|done].
      * exists u. split; [by apply list_elem_of_further|done].
    + intros (u & [->|Hu]%elem_of_cons & Hz & ->).
      * left. destruct Hbody as [[_ ->]|[Hnz _]]; [|done].
        apply list_elem_of_here.
      * right. by exists u.
Qed.

Lemma user_body_no_status (JOB_STATUSES_TERMINATED : list string)
    (env : Collaborators) (u : User) (je_id : string) (je : JobExecution)
    (w : world) :
  user_name u = "job_" +:+ je_id →
  job_execution_get (conductor env) je_id = Some je →
  info je !! "status" = None →
  check_zombie_proxy_user JOB_STATUSES_TERMINATED env u w
  = (w, Raise (KeyError "status")).
Proof.
  intros Hname Hje Hstatus. unfold check_zombie_proxy_user.
  rewrite Hname. destruct (job_startswith je_id) as [-> ->].
  rewrite Hje. unfold bind, dict_get. by rewrite Hstatus.
Qed.

(** X13.  When a listed user is named [job_] followed by the id of a
    job execution whose [info] has no ['status'] entry, the cycle raises
    [KeyError] at that user: the zombies listed before it have been
    deleted, no user listed after it is looked at, and the admin context
    is left in place. *)
Theorem check_for_zombie_proxy_users_missing_status
    (JOB_STATUSES_TERMINATED : list string) (env : Collaborators)
    (before after : list User) (u : User) (je_id : string)
    (je : JobExecution) (w : world) :
  proxy_domain_users_list env = before ++ u :: after →
  Forall (status_known env) before →
  user_name u = "job_" +:+ je_id →
  job_execution_get (conductor env) je_id = Some je →
  info je !! "status" = None →
  ∃ new,
    check_for_zombie_proxy_users JOB_STATUSES_TERMINATED env w
    = (mkWorld (Some AdminContext) (clock w) (calls w ++ new),
       Raise (KeyError "status"))
    ∧ ∀ e, e ∈ new
           ↔ ∃ v, v ∈ before ∧ zombie JOB_STATUSES_TERMINATED env v
                  ∧ e = EvProxyUserDelete (user_id v).
Proof.
  intros Husers Hbefore Hname Hje Hstatus.
  destruct (users_loop_known JOB_STATUSES_TERMINATED env before Hbefore
              (mkWorld (Some AdminContext) (clock w) (calls w)))
    as (new & Hrun & Hnew).
  exists new. split; [|exact Hnew].
  transitivity
    (match for_each (proxy_domain_users_list env)
             (check_zombie_proxy_user JOB_STATUSES_TERMINATED env)
             (mkWorld (Some AdminContext) (clock w) (calls w)) with
     | (w', Ok _) => set_ctx None w'
     | (w', Raise e) => (w', Raise e)
     end); [reflexivity|].
  rewrite Husers, for_each_app, Hrun, for_each_cons.
  by rewrite (user_body_no_status _ env u je_id je).
Qed.

(** A deployment in which job execution [je-9] has an empty [info]. *)
Definition env_no_status : Collaborators :=
  mkCollaborators
    (mkConductor [] (<[ "je-9" := mkJobExecution "c-due" None ∅ ]> ∅))
    (Ok tt) (λ _, Ok tt)
    ([mkUser "u-7" "job_je-7"] ++ mkUser "u-9" "job_je-9"
                               :: [mkUser "u-8" "job_je-8"]).

Lemma check_for_zombie_proxy_users_missing_status_witness :
  ∃ new,
    check_for_zombie_proxy_users terminated_statuses env_no_status idle
    = (mkWorld (Some AdminContext) 0 new, Raise (KeyError "status"))
    ∧ ∀ e, e ∈ new
           ↔ ∃ v, v ∈ [mkUser "u-7" "job_je-7"]
                  ∧ zombie terminated_statuses env_no_status v
                  ∧ e = EvProxyUserDelete (user_id v).
Proof.
  apply (check_for_zombie_proxy_users_missing_status terminated_statuses
           env_no_status [mkUser "u-7" "job_je-7"] [mkUser "u-8" "job_je-8"]
           (mkUser "u-9" "job_je-9") "je-9"
           (mkJobExecution "c-due" None ∅) idle).
  - reflexivity.
  - constructor; [|constructor]. intros _ je Hje. discriminate Hje.
  - reflexivity.
  - reflexivity.
  - reflexivity.
Defined.

Example check_for_zombie_proxy_users_no_status_run :
  check_for_zombie_proxy_users terminated_statuses env_no_status idle
  = (mkWorld (Some AdminContext) 0 [EvProxyUserDelete "u-7"],
     Raise (KeyError "status")).
Proof. vm_compute. reflexivity. Qed.

(** C7 as the specification words it: in a cycle, every listed user is
    deleted exactly when its name is [job_] followed by the id of a job
    execution that is absent or has a terminal status. *)
Definition zombies_deleted (JOB_STATUSES_TERMINATED : list string)
    (env : Collaborators) (w : world) : Prop :=
  ∀ u, u ∈ proxy_domain_users_list env →
       (EvProxyUserDelete (user_id u)
          ∈ calls (check_for_zombie_proxy_users JOB_STATUSES_TERMINATED
                     env w).1
        ↔ zombie JOB_STATUSES_TERMINATED env u).

(** With job execution [je-9] lacking a status, the cycle raises at user
    [u-9] and user [u-8], whose job execution [je-8] is absent, is never
    deleted. *)
Lemma check_for_zombie_proxy_users_skips_zombie :
  ¬ zombies_deleted terminated_statuses env_no_status idle.
Proof.
  intros H.
  destruct (H (mkUser "u-8" "job_je-8")) as [_ Hdeleted].
  - do 2 apply list_elem_of_further. apply list_elem_of_here.
  - assert (Hzombie : zombie terminated_statuses env_no_status
                             (mkUser "u-8" "job_je-8")).
    { exists "je-8". split; [reflexivity|]. left. reflexivity. }
    specialize (Hdeleted Hzombie). vm_compute in Hdeleted.
    apply elem_of_cons in Hdeleted as [Hdeleted|Hdeleted];
      [discriminate Hdeleted|].
    by apply elem_of_nil in Hdeleted.
Qed.


End PeriodicMore.


(** * Properties of the operations on roles, services and configuration *)

Module ClouderaOpsProofs.
Import ClouderaUtils ClouderaUtilsProofs ClouderaUtilsMore ClouderaOps.

(** The session after the requests [cs]. *)
Definition noted (s : session) (cs : list call) : session :=
  mkSession (now s) (history s ++ cs).

Lemma noted_nil s : noted s [] = s.
Proof. destruct s; unfold noted; simpl. by rewrite app_nil_r. Qed.

Lemma noted_app s cs cs' : noted (noted s cs) cs' = noted s (cs ++ cs').
Proof. unfold noted; simpl. by rewrite app_assoc. Qed.

(** The entries of the history for waiting on [cmds]. *)
Definition awaited (cmds : list ApiCommand) : list call :=
  map Base (waits cmds).

Lemma awaited_app (cmds cmds' : list ApiCommand) :
  awaited (cmds ++ cmds') = awaited cmds ++ awaited cmds'.
Proof. unfold awaited, waits. by rewrite !map_app. Qed.

Lemma yield_outcome (cmd : ApiCommand) (s : session) :
  (¬ offending cmd ∧ yield cmd s = (noted s (awaited [cmd]), Ok tt))
  ∨ (offending cmd
     ∧ ∃ msg, yield cmd s
              = (noted s (awaited [cmd]), Raise (HadoopProvisionError msg))).
Proof.
  unfold yield, lift.
  destruct (wait_and_check_outcome cmd (mkWorld (now s) []))
    as [[Hquiet ->]|[Hoff (msg & ->)]].
  - left. by split.
  - right. split; [done|]. by exists msg.
Qed.

(** A loop whose rounds each add their requests and return. *)
Lemma for_each_rounds {A} (round : A → list call)
    (body : A → M session unit) (xs : list A) :
  (∀ x, x ∈ xs → ∀ s, body x s = (noted s (round x), Ok tt)) →
  ∀ s, for_each xs body s = (noted s (flat_map round xs), Ok tt).
Proof.
  induction xs as [|x xs IH]; intros Hbody s.
  - simpl. by rewrite noted_nil.
  - rewrite for_each_cons, Hbody by apply list_elem_of_here.
    rewrite IH by (intros y Hy; by apply Hbody, list_elem_of_further).
    simpl. by rewrite noted_app.
Qed.

(** A loop that is left by the first round that raises. *)
Lemma for_each_rounds_raise {A} (round : A → list call)
    (body : A → M session unit) (before after : list A) (x : A)
    (last : list call) (e : exn) :
  (∀ y, y ∈ before → ∀ s, body y s = (noted s (round y), Ok tt)) →
  (∀ s, body x s = (noted s last, Raise e)) →
  ∀ s, for_each (before ++ x :: after) body s
       = (noted s (flat_map round before ++ last), Raise e).
Proof.
  intros Hbefore Hx s.
  rewrite for_each_app, (for_each_rounds round) by done.
  by rewrite for_each_cons, Hx, noted_app.
Qed.

Lemma yields_quiet (cmds : list ApiCommand) (s : session) :
  Forall (λ c, ¬ offending c) cmds →
  for_each cmds yield s = (noted s (awaited cmds), Ok tt).
Proof.
  intros Hall.
  rewrite (for_each_rounds (λ c, awaited [c])).
  - unfold awaited, waits. f_equal. f_equal.
    induction cmds as [|c cmds IH]; [done|]. simpl. f_equal.
    apply IH. by apply Forall_cons in Hall as [_ ?].
  - intros c Hc s'. rewrite Forall_forall in Hall.
    destruct (yield_outcome c s') as [[_ ->]|[Hoff _]]; [done|].
    by destruct (Hall c Hc).
Qed.

Lemma yields_stop (before after : list ApiCommand) (cmd : ApiCommand)
    (s : session) :
  Forall (λ c, ¬ offending c) before →
  offending cmd →
  ∃ msg, for_each (before ++ cmd :: after) yield s
         = (noted s (awaited (before ++ [cmd])),
            Raise (HadoopProvisionError msg)).
Proof.
  intros Hbefore Hcmd.
  rewrite for_each_app, yields_quiet by done. rewrite for_each_cons.
  destruct (yield_outcome cmd (noted s (awaited before)))
    as [[Hquiet _]|[_ (msg & ->)]]; [done|].
  exists msg. by rewrite noted_app, awaited_app.
Qed.

(** What the wrapper's loop body does with [cmd] does not depend on the
    world it is run in. *)
Definition verdict (cmd : ApiCommand) : result unit :=
  (wait_and_check cmd (mkWorld 0 [])).2.

Lemma check_children_frame (cs : list ApiCommand) (w w' : world) :
  check_children cs w = (w, (check_children cs w').2).
Proof.
  induction cs as [|c cs IH]; simpl; [done|].
  by destruct (success c).
Qed.

Lemma wait_and_check_frame (cmd : ApiCommand) (w : world) :
  wait_and_check cmd w = (waited cmd w, verdict cmd).
Proof.
  unfold verdict, wait_and_check, wait, bind, emit, ret; simpl.
  fold (waited cmd w).
  destruct (success cmd); simpl; [done|].
  destruct (children cmd) as [cs|]; [|done].
  apply check_children_frame.
Qed.

Lemma cloudera_cmd_frame (cmds : list ApiCommand) (t : Z) :
  ∀ tr, cloudera_cmd cmds (mkWorld t tr)
        = ((mkWorld t (tr ++ trace (cloudera_cmd cmds (mkWorld t [])).1)),
           (cloudera_cmd cmds (mkWorld t [])).2).
Proof.
  unfold cloudera_cmd.
  induction cmds as [|c cmds IH]; intros tr.
  - simpl. by rewrite app_nil_r.
  - rewrite !for_each_cons, !wait_and_check_frame.
    destruct (verdict c) as [[]|e]; unfold waited; simpl; [|done].
    rewrite (IH (tr ++ [EvWait (cmd_id c)])), (IH [EvWait (cmd_id c)]).
    simpl. by rewrite <- app_assoc.
Qed.

Lemma cloudera_cmd_clock (cmds : list ApiCommand) (t : Z)
    (tr : list event) :
  clock (cloudera_cmd cmds (mkWorld t tr)).1 = t.
Proof. by rewrite cloudera_cmd_frame. Qed.

Lemma yield_run (cmd : ApiCommand) (s : session) :
  yield cmd s = (noted s (awaited [cmd]), verdict cmd).
Proof. unfold yield, lift. by rewrite wait_and_check_frame. Qed.

(** The wrapper's loop over the commands yielded is the wrapper of
    [cloudera_cmd] run within the session. *)
Lemma yields_cloudera_cmd (cmds : list ApiCommand) :
  ∀ s, for_each cmds yield s = lift (cloudera_cmd cmds) s.
Proof.
  induction cmds as [|c cmds IH]; intros s.
  - unfold lift; simpl. destruct s; simpl. by rewrite app_nil_r.
  - rewrite for_each_cons, yield_run. unfold lift, cloudera_cmd.
    rewrite for_each_cons, wait_and_check_frame.
    destruct (verdict c) as [[]|e]; unfold waited; simpl; [|done].
    rewrite IH. unfold lift; simpl. fold (cloudera_cmd cmds).
    rewrite (cloudera_cmd_frame cmds (now s) [EvWait (cmd_id c)]).
    pose proof (cloudera_cmd_clock cmds (now s) []) as Hclock.
    destruct (cloudera_cmd cmds (mkWorld (now s) [])) as [w r]; simpl in *.
    by rewrite Hclock, <- app_assoc.
Qed.

(** ** The operations that yield one command *)

(** [run] is what comes of making request [c], answered with [cmd], and
    waiting on [cmd] under the wrapper: both are entered in the history,
    and the run returns normally unless [cmd] is one the wrapper raises
    on, in which case it raises a [HadoopProvisionError]. *)
Definition one_command (s : session) (c : call) (cmd : ApiCommand)
    (run : session * result unit) : Prop :=
  run.1 = noted s [c; Base (EvWait (cmd_id cmd))]
  ∧ (run.2 = Ok tt ↔ ¬ offending cmd)
  ∧ (offending cmd → ∃ msg, run.2 = Raise (HadoopProvisionError msg)).

Lemma request_then_yield (c : call) (cmd : ApiCommand) (s : session) :
  one_command s c cmd (bind (request c cmd) yield s).
Proof.
  unfold one_command, bind, request.
  destruct (yield_outcome cmd (mkSession (now s) (history s ++ [c])))
    as [[Hquiet ->]|[Hoff (msg & ->)]]; simpl.
  - split; [|by split]. unfold noted; simpl. by rewrite <- app_assoc.
  - split; [|split].
    + unfold noted; simpl. by rewrite <- app_assoc.
    + split; [discriminate | done].
    + intros _. by exists msg.
Qed.

(** X14.  [start_instances], [deploy_configs], [restart_mgmt_service]
    and [start_service] each make their one request (cluster start,
    cluster client-config deployment, management-service restart,
    service start), wait on the command it returns, and return normally
    unless that command failed with [children = None] or with a failed
    child, in which case they raise a [HadoopProvisionError]. *)
Theorem single_command_operations (ep : Endpoint) (cluster : Cluster)
    (service : ApiService) (s : session) :
  let cm_cluster := get_cloudera_cluster cluster in
  let api := get_api_client cluster in
  one_command s (ClusterStart cm_cluster) (ep_cluster_start ep cm_cluster)
              (start_instances ep cluster s)
  ∧ one_command s (ClusterDeployClientConfig cm_cluster)
                (ep_cluster_deploy ep cm_cluster)
                (deploy_configs ep cluster s)
  ∧ one_command s (MgmtRestart api) (ep_mgmt_restart ep api)
                (restart_mgmt_service ep cluster s)
  ∧ one_command s (ServiceStart service) (ep_service_start ep service)
                (start_service ep service s).
Proof. repeat split; apply request_then_yield. Qed.

(** ** [start_roles] *)

(** X15.  [start_roles] makes one request for all the roles, then waits
    on the commands it returned in order: it returns normally when none
    is a command the wrapper raises on, and otherwise raises at the first
    such command without waiting on the ones after it. *)
Theorem start_roles_outcome (ep : Endpoint) (service : ApiService)
    (role_names : list string) (s : session) :
  let cmds := ep_start_roles ep service role_names in
  (Forall (λ c, ¬ offending c) cmds →
   start_roles ep service role_names s
   = (noted s (ServiceStartRoles service role_names :: awaited cmds), Ok tt))
  ∧ (∀ before cmd after,
       cmds = before ++ cmd :: after →
       Forall (λ c, ¬ offending c) before →
       offending cmd →
       ∃ msg,
         start_roles ep service role_names s
         = (noted s (ServiceStartRoles service role_names
                     :: awaited (before ++ [cmd])),
            Raise (HadoopProvisionError msg))).
Proof.
  intros cmds.
  assert (Hrun : start_roles ep service role_names s
                 = for_each cmds yield
                     (noted s [ServiceStartRoles service role_names]))
    by reflexivity.
  rewrite Hrun. split.
  - intros Hall. rewrite yields_quiet by done. by rewrite noted_app.
  - intros before cmd after -> Hbefore Hcmd.
    destruct (yields_stop before after cmd
                (noted s [ServiceStartRoles service role_names])
                Hbefore Hcmd) as (msg & ->).
    exists msg. by rewrite noted_app.
Qed.

Definition svc_hdfs : ApiService := hdfs0.

Definition pu0 : PluginUtils :=
  mkPluginUtils (λ p, p)
                (λ inst p, p +:+ "-" +:+ instance_name inst)
                (λ _, inst_a)
                (λ _ _ _, None).

(** An endpoint on which starting roles returns a successful and then a
    failed command, [HIVESERVER2] has no role, and the rest goes
    through. *)
Definition ep0 : Endpoint :=
  mkEndpoint (λ _, ok_cmd) (λ _, ok_cmd) (λ _, ok_cmd) (λ _, ok_cmd)
             (λ _ _, [ok_cmd; failed_alone; ok_cmd])
             (λ _ process, if decide (process = "DATANODE")
                           then ["dn-1"; "dn-2"] else [])
             (λ _ role, if decide (role = "dn-1") then [ok_cmd]
                        else [failed_alone; ok_cmd])
             (λ _ _, ok_cmd)
             (λ _ _ _ _, Ok tt) (λ _ _ _, Ok tt)
             (λ _ _, Raise (RemoteError "already exists"))
             (λ _ _, Ok tt).

Definition s0 : session := mkSession 0 [].

Lemma start_roles_outcome_witness :
  ∃ msg,
    start_roles ep0 svc_hdfs ["dn-1"; "dn-2"; "dn-3"] s0
    = (noted s0 (ServiceStartRoles svc_hdfs ["dn-1"; "dn-2"; "dn-3"]
                 :: awaited ([ok_cmd] ++ [failed_alone])),
       Raise (HadoopProvisionError msg)).
Proof.
  apply (proj2 (start_roles_outcome ep0 svc_hdfs ["dn-1"; "dn-2"; "dn-3"] s0)
           [ok_cmd] failed_alone [ok_cmd]).
  - reflexivity.
  - repeat constructor. intros [H _]. discriminate H.
  - split; [reflexivity | exact I].
Defined.

(** ** [refresh_nodes] *)

(** The entries of the history for refreshing role [nd]. *)
Definition refresh_round (ep : Endpoint) (service : ApiService)
    (nd : string) : list call :=
  ServiceRefresh service nd :: awaited (ep_refresh ep service nd).

(** The refresh of role [nd] returns commands the wrapper lets pass. *)
Definition refreshes (ep : Endpoint) (service : ApiService) (nd : string)
  : Prop :=
  Forall (λ c, ¬ offending c) (ep_refresh ep service nd).

Lemma refresh_body (ep : Endpoint) (service : ApiService) (nd : string)
    (s : session) :
  bind (request (ServiceRefresh service nd) (ep_refresh ep service nd))
       (λ sts, for_each sts yield) s
  = for_each (ep_refresh ep service nd) yield
      (noted s [ServiceRefresh service nd]).
Proof. reflexivity. Qed.

(** X16.  [refresh_nodes] lists the roles of the process once, then
    refreshes them one at a time: the refresh of a role is requested only
    after every command of the roles before it has been waited on and
    passed.  It returns normally when all commands pass; at the first
    command the wrapper raises on it raises a [HadoopProvisionError], and
    the roles after that one are never refreshed. *)
Theorem refresh_nodes_outcome (ep : Endpoint) (cluster : Cluster)
    (process service_name : string) (s : session) :
  let service := get_service (get_cloudera_cluster cluster) service_name in
  let nds := ep_roles_by_type ep service process in
  (Forall (refreshes ep service) nds →
   refresh_nodes ep cluster process service_name s
   = (noted s (ServiceGetRolesByType service process
               :: flat_map (refresh_round ep service) nds),
      Ok tt))
  ∧ (∀ before nd after passed cmd rest,
       nds = before ++ nd :: after →
       Forall (refreshes ep service) before →
       ep_refresh ep service nd = passed ++ cmd :: rest →
       Forall (λ c, ¬ offending c) passed →
       offending cmd →
       ∃ msg,
         refresh_nodes ep cluster process service_name s
         = (noted s (ServiceGetRolesByType service process
                     :: flat_map (refresh_round ep service) before
                     ++ ServiceRefresh service nd
                     :: awaited (passed ++ [cmd])),
            Raise (HadoopProvisionError msg))).
Proof.
  intros service nds.
  set (body := λ nd : string,
         bind (request (ServiceRefresh service nd) (ep_refresh ep service nd))
              (λ sts, for_each sts yield)).
  assert (Hrun : refresh_nodes ep cluster process service_name s
                 = for_each nds body
                     (noted s [ServiceGetRolesByType service process]))
    by reflexivity.
  assert (Hpass : ∀ l, Forall (refreshes ep service) l →
            ∀ nd, nd ∈ l →
            ∀ s', body nd s' = (noted s' (refresh_round ep service nd), Ok tt)).
  { intros l Hl nd Hnd s'. rewrite Forall_forall in Hl.
    unfold body. rewrite refresh_body, yields_quiet by by apply Hl.
    by rewrite noted_app. }
  rewrite Hrun. split.
  - intros Hall.
    rewrite (for_each_rounds (refresh_round ep service)) by by apply Hpass.
    by rewrite noted_app.
  - intros before nd after passed cmd rest -> Hbefore Hnd Hpassed Hcmd.
    assert (Hstop : ∃ msg, ∀ s',
               body nd s'
               = (noted s' (ServiceRefresh service nd
                            :: awaited (passed ++ [cmd])),
                  Raise (HadoopProvisionError msg))).
    { destruct (yield_outcome cmd s0) as [[Hq _]|[_ (msg & Hmsg)]]; [done|].
      exists msg. intros s'. unfold body. rewrite refresh_body, Hnd.
      rewrite for_each_app, yields_quiet by done.
      rewrite for_each_cons, yield_run.
      rewrite yield_run in Hmsg. injection Hmsg as ->.
      by rewrite !noted_app, awaited_app. }
    destruct Hstop as (msg' & Hstop). exists msg'.
    rewrite (for_each_rounds_raise (refresh_round ep service) body
               before after nd _ _ (Hpass before Hbefore) Hstop).
    by rewrite noted_app.
Qed.

Lemma refresh_nodes_outcome_witness :
  refresh_nodes ep0 cluster0 "HIVESERVER2" "hive01" s0
  = (mkSession 0
       [ServiceGetRolesByType
          (get_service (get_cloudera_cluster cluster0) "hive01")
          "HIVESERVER2"],
     Ok tt)
  ∧ ∃ msg,
      refresh_nodes ep0 cluster0 "DATANODE" "hdfs01" s0
      = (mkSession 0
           [ServiceGetRolesByType hdfs0 "DATANODE";
            ServiceRefresh hdfs0 "dn-1"; Base (EvWait 1);
            ServiceRefresh hdfs0 "dn-2"; Base (EvWait 3)],
         Raise (HadoopProvisionError msg)).
Proof.
  split.
  - apply (proj1 (refresh_nodes_outcome ep0 cluster0 "HIVESERVER2"
                    "hive01" s0)).
    constructor.
  - apply (proj2 (refresh_nodes_outcome ep0 cluster0 "DATANODE" "hdfs01" s0)
             ["dn-1"] "dn-2" [] [] failed_alone [ok_cmd]).
    + reflexivity.
    + repeat constructor. intros [H _]. discriminate H.
    + reflexivity.
    + constructor.
    + split; [reflexivity | exact I].
Defined.

(** ** Services of an instance *)

(** The service [name] on the Cloudera cluster of the instance's own
    cluster. *)
Definition instance_service (instance : Instance) (name : string)
  : ApiService :=
  get_service (get_cloudera_cluster (ng_cluster (node_group instance))) name.

(** The service the table names for [process], for an instance. *)
Definition service_for (instance : Instance) (process : string)
  : ApiService :=
  instance_service instance (default "" (table_lookup process service_table)).

Lemma get_service_by_role_instance (process : string) (instance : Instance) :
  get_service_by_role process None (Some instance)
  = route (get_cloudera_cluster (ng_cluster (node_group instance))) process.
Proof.
  change (get_service_by_role process None (Some instance))
    with (get_service_by_role process
            (Some (ng_cluster (node_group instance))) None).
  apply get_service_by_role_route.
Qed.

Lemma instance_service_tabled (process : string) (instance : Instance) :
  process ∈ service_table.*1 →
  get_service_by_role process None (Some instance)
  = Ok (service_for instance process).
Proof.
  intros Hin. rewrite get_service_by_role_instance.
  unfold route, service_for, instance_service.
  destruct (table_lookup process service_table) as [name|] eqn:Hname;
    [done|].
  by apply table_lookup_None in Hname.
Qed.

Lemma instance_service_untabled (process : string) (instance : Instance) :
  process ∉ service_table.*1 →
  get_service_by_role process None (Some instance)
  = Raise (unsupported process).
Proof.
  intros Hout. rewrite get_service_by_role_instance. unfold route.
  by rewrite (proj2 (table_lookup_None _ _) Hout).
Qed.

(** ** [update_configs] *)

Section UpdateConfigs.

Variable pu : PluginUtils.
Variable ep : Endpoint.
Variable instance : Instance.

(** The command that redeploys the client configuration for [p]. *)
Definition deploy_command (p : string) : ApiCommand :=
  let process := convert_role_showname pu p in
  ep_deploy_client_config ep (service_for instance process)
                          (get_role_name pu instance process).

(** The entries of the history for the process [p]. *)
Definition deploy_round (p : string) : list call :=
  let process := convert_role_showname pu p in
  [ServiceDeployClientConfig (service_for instance process)
                             (get_role_name pu instance process);
   Base (EvWait (cmd_id (deploy_command p)))].

(** The process is in the table once converted, and its redeployment
    is a command the wrapper lets pass. *)
Definition redeploys (p : string) : Prop :=
  convert_role_showname pu p ∈ service_table.*1
  ∧ ¬ offending (deploy_command p).

Lemma update_config_of_tabled (p : string) (s : session) :
  convert_role_showname pu p ∈ service_table.*1 →
  update_config_of pu ep instance p s
  = (noted s (deploy_round p), verdict (deploy_command p)).
Proof.
  intros Hin. unfold update_config_of.
  rewrite (instance_service_tabled _ _ Hin).
  unfold bind, lift_result, request. rewrite yield_run.
  unfold noted, deploy_round, deploy_command; simpl.
  by rewrite <- app_assoc.
Qed.

Lemma verdict_outcome (cmd : ApiCommand) :
  (¬ offending cmd ∧ verdict cmd = Ok tt)
  ∨ (offending cmd ∧ ∃ msg, verdict cmd = Raise (HadoopProvisionError msg)).
Proof.
  unfold verdict.
  destruct (wait_and_check_outcome cmd (mkWorld 0 []))
    as [[Hq ->]|[Ho (msg & ->)]]; [by left|].
  right. split; [done|]. by exists msg.
Qed.

Lemma update_config_of_redeploys (p : string) (s : session) :
  redeploys p →
  update_config_of pu ep instance p s = (noted s (deploy_round p), Ok tt).
Proof.
  intros [Hin Hquiet]. rewrite update_config_of_tabled by done.
  by destruct (verdict_outcome (deploy_command p)) as [[_ ->]|[? _]].
Qed.

End UpdateConfigs.

(** X17.  When every process of the instance is in the table once
    converted and every redeployment passes, [update_configs] redeploys
    the client configuration process by process, in the order of the node
    group, waiting on each command before it asks for the next
    redeployment, and returns normally. *)
Theorem update_configs_all (pu : PluginUtils) (ep : Endpoint)
    (instance : Instance) (s : session) :
  Forall (redeploys pu ep instance) (node_processes (node_group instance)) →
  update_configs pu ep instance s
  = (noted s (flat_map (deploy_round pu ep instance)
                       (node_processes (node_group instance))),
     Ok tt).
Proof.
  intros Hall. unfold update_configs.
  apply for_each_rounds. intros p Hp s'. rewrite Forall_forall in Hall.
  by apply update_config_of_redeploys, Hall.
Qed.

Lemma update_configs_all_witness :
  update_configs pu0 ep0 inst_a s0
  = (mkSession 0
       [ServiceDeployClientConfig hdfs0 "DATANODE-worker-a";
        Base (EvWait 1);
        ServiceDeployClientConfig
          (get_service (get_cloudera_cluster cluster0) "yarn01")
          "NODEMANAGER-worker-a";
        Base (EvWait 1)],
     Ok tt).
Proof.
  apply (update_configs_all pu0 ep0 inst_a s0).
  repeat constructor;
    try (refine (bool_decide_eq_true_1 _ _); reflexivity);
    intros [H _]; discriminate H.
Defined.

(** X18.  [update_configs] stops at the first process it cannot
    redeploy: for a process outside the table it raises the
    unsupported-process [ValueError] before any request for it, for a
    redeployment the wrapper raises on it raises a [HadoopProvisionError]
    after waiting on it.  In both cases the processes before it have been
    redeployed and stay so, and the processes after it are not looked
    at. *)
Theorem update_configs_stops (pu : PluginUtils) (ep : Endpoint)
    (instance : Instance) (before after : list string) (p : string)
    (s : session) :
  node_processes (node_group instance) = before ++ p :: after →
  Forall (redeploys pu ep instance) before →
  (convert_role_showname pu p ∉ service_table.*1 →
   update_configs pu ep instance s
   = (noted s (flat_map (deploy_round pu ep instance) before),
      Raise (unsupported (convert_role_showname pu p))))
  ∧ (convert_role_showname pu p ∈ service_table.*1 →
     offending (deploy_command pu ep instance p) →
     ∃ msg,
       update_configs pu ep instance s
       = (noted s (flat_map (deploy_round pu ep instance) (before ++ [p])),
          Raise (HadoopProvisionError msg))).
Proof.
  intros Hps Hbefore. unfold update_configs. rewrite Hps.
  assert (Hpass : ∀ q, q ∈ before →
            ∀ s', update_config_of pu ep instance q s'
                  = (noted s' (deploy_round pu ep instance q), Ok tt)).
  { intros q Hq s'. rewrite Forall_forall in Hbefore.
    by apply update_config_of_redeploys, Hbefore. }
  split.
  - intros Hout.
    rewrite (for_each_rounds_raise (deploy_round pu ep instance) _
               before after p []
               (unsupported (convert_role_showname pu p)) Hpass).
    + by rewrite app_nil_r.
    + intros s'. unfold update_config_of.
      rewrite (instance_service_untabled _ _ Hout).
      unfold bind, lift_result. by rewrite noted_nil.
  - intros Hin Hoff.
    destruct (verdict_outcome (deploy_command pu ep instance p))
      as [[Hq _]|[_ (msg & Hmsg)]]; [done|].
    exists msg.
    rewrite (for_each_rounds_raise (deploy_round pu ep instance) _
               before after p (deploy_round pu ep instance p)
               (HadoopProvisionError msg) Hpass).
    + rewrite flat_map_app. reflexivity.
    + intros s'. rewrite update_config_of_tabled by done. by rewrite Hmsg.
Qed.

(** A node group with a process the plugin has no service for. *)
Definition inst_odd : Instance :=
  mkInstance "worker-c" "worker-c.novalocal"
             (mkNodeGroup (["DATANODE"] ++ "IMPALAD" :: ["NODEMANAGER"])
                          cluster0).

Lemma update_configs_stops_witness :
  update_configs pu0 ep0 inst_odd s0
  = (mkSession 0
       [ServiceDeployClientConfig hdfs0 "DATANODE-worker-c";
        Base (EvWait 1)],
     Raise (unsupported "IMPALAD")).
Proof.
  assert (Hbefore : Forall (redeploys pu0 ep0 inst_odd) ["DATANODE"]).
  { constructor; [split|constructor].
    - refine (bool_decide_eq_true_1 _ _); reflexivity.
    - intros [H _]. discriminate H. }
  apply (proj1 (update_configs_stops pu0 ep0 inst_odd
                  ["DATANODE"] ["NODEMANAGER"] "IMPALAD" s0
                  eq_refl Hbefore)).
  refine (bool_decide_eq_false_1 _ _); reflexivity.
Defined.

(** ** [configure_instances] *)

Section ConfigureInstances.

Variable pu : PluginUtils.
Variable ep : Endpoint.
Variable cluster : option Cluster.

(** The request that creates the role of process [p] on the instance. *)
Definition create_call (instance : Instance) (p : string) : call :=
  let process := convert_role_showname pu p in
  ServiceCreateRole (service_for instance process)
                    (get_role_name pu instance process)
                    process (fqdn instance).

(** The request that configures that role. *)
Definition configure_call (instance : Instance) (p : string) : call :=
  let process := convert_role_showname pu p in
  RoleUpdateConfig (service_for instance process)
                   (get_role_name pu instance process)
                   (get_configs pu process cluster (node_group instance)).

(** The entries of the history for the process [p] of an instance. *)
Definition role_round (instance : Instance) (p : string) : list call :=
  if decide (p = "CLOUDERA_MANAGER") then []
  else [create_call instance p; configure_call instance p].

Definition instance_round (instance : Instance) : list call :=
  flat_map (role_round instance) (node_processes (node_group instance)).

Definition created (instance : Instance) (p : string) : result unit :=
  let process := convert_role_showname pu p in
  ep_create_role ep (service_for instance process)
                 (get_role_name pu instance process) process (fqdn instance).

Definition configured (instance : Instance) (p : string) : result unit :=
  let process := convert_role_showname pu p in
  ep_update_config ep (service_for instance process)
                   (get_role_name pu instance process)
                   (get_configs pu process cluster (node_group instance)).

(** [p] is the manager process, or it is in the table once converted
    and its role can be created and configured. *)
Definition configurable (instance : Instance) (p : string) : Prop :=
  p = "CLOUDERA_MANAGER"
  ∨ (convert_role_showname pu p ∈ service_table.*1
     ∧ created instance p = Ok tt ∧ configured instance p = Ok tt).

Lemma str_in_manager (p : string) :
  str_in p ["CLOUDERA_MANAGER"] = bool_decide (p = "CLOUDERA_MANAGER").
Proof.
  unfold str_in. apply bool_decide_ext.
  rewrite elem_of_cons, elem_of_nil. tauto.
Qed.

Lemma add_role_manager (instance : Instance) (s : session) :
  add_role pu ep instance "CLOUDERA_MANAGER" cluster s = (s, Ok tt).
Proof. reflexivity. Qed.

Lemma add_role_tabled (instance : Instance) (p : string) (s : session) :
  p ≠ "CLOUDERA_MANAGER" →
  convert_role_showname pu p ∈ service_table.*1 →
  add_role pu ep instance p cluster s
  = match created instance p with
    | Ok _ => (noted s [create_call instance p; configure_call instance p],
               configured instance p)
    | Raise e => (noted s [create_call instance p], Raise e)
    end.
Proof.
  intros Hp Hin. unfold add_role.
  rewrite str_in_manager, bool_decide_eq_false_2 by done.
  rewrite (instance_service_tabled _ _ Hin).
  unfold bind, lift_result, attempt, created, noted; simpl.
  destruct (ep_create_role ep _ _ _ _) as [[]|e]; [|done].
  by rewrite <- app_assoc.
Qed.

Lemma add_role_untabled (instance : Instance) (p : string) (s : session) :
  p ≠ "CLOUDERA_MANAGER" →
  convert_role_showname pu p ∉ service_table.*1 →
  add_role pu ep instance p cluster s
  = (s, Raise (unsupported (convert_role_showname pu p))).
Proof.
  intros Hp Hout. unfold add_role.
  rewrite str_in_manager, bool_decide_eq_false_2 by done.
  by rewrite (instance_service_untabled _ _ Hout).
Qed.

Lemma add_role_configurable (instance : Instance) (p : string)
    (s : session) :
  configurable instance p →
  add_role pu ep instance p cluster s
  = (noted s (role_round instance p), Ok tt).
Proof.
  unfold role_round. intros [->|(Hin & Hcreate & Hconf)].
  - rewrite add_role_manager. simpl. by rewrite noted_nil.
  - destruct (decide (p = "CLOUDERA_MANAGER")) as [->|Hp].
    + rewrite add_role_manager. by rewrite noted_nil.
    + rewrite add_role_tabled by done. by rewrite Hcreate, Hconf.
Qed.

Lemma configure_instance_configurable (instance : Instance) (s : session) :
  Forall (configurable instance) (node_processes (node_group instance)) →
  configure_instance pu ep instance cluster s
  = (noted s (instance_round instance), Ok tt).
Proof.
  intros Hall. unfold configure_instance, instance_round.
  apply (for_each_rounds (role_round instance)).
  intros p Hp s'. rewrite Forall_forall in Hall.
  by apply add_role_configurable, Hall.
Qed.

End ConfigureInstances.

(** X19.  When every process of every instance is the manager process
    or a process of the table whose role can be created and configured,
    [configure_instances] goes through the instances in order and through
    the processes of each in order, creating and then configuring one
    role per process other than [CLOUDERA_MANAGER], for which it asks
    nothing.  Each role is created in the service of the instance's own
    cluster: the [cluster] argument only reaches [_get_configs]. *)
Theorem configure_instances_all (pu : PluginUtils) (ep : Endpoint)
    (instances : list Instance) (cluster : option Cluster) (s : session) :
  Forall (λ inst, Forall (configurable pu ep cluster inst)
                         (node_processes (node_group inst))) instances →
  configure_instances pu ep instances cluster s
  = (noted s (flat_map (instance_round pu cluster) instances), Ok tt).
Proof.
  intros Hall. unfold configure_instances.
  apply (for_each_rounds (instance_round pu cluster)).
  intros inst Hinst s'. rewrite Forall_forall in Hall.
  by apply configure_instance_configurable, Hall.
Qed.

Definition inst_mgr : Instance :=
  mkInstance "manager" "manager.novalocal"
             (mkNodeGroup ["CLOUDERA_MANAGER"; "NAMENODE"] cluster1).

Lemma configure_instances_all_witness :
  configure_instances pu0 ep0 [inst_mgr] (Some cluster0) s0
  = (mkSession 0
       [ServiceCreateRole
          (get_service (get_cloudera_cluster cluster1) "hdfs01")
          "NAMENODE-manager" "NAMENODE" "manager.novalocal";
        RoleUpdateConfig
          (get_service (get_cloudera_cluster cluster1) "hdfs01")
          "NAMENODE-manager" None],
     Ok tt).
Proof.
  apply (configure_instances_all pu0 ep0 [inst_mgr] (Some cluster0) s0).
  constructor; [|constructor].
  constructor; [by left|]. constructor; [|constructor].
  right. split; [|by split].
  refine (bool_decide_eq_true_1 _ _); reflexivity.
Defined.

(** X20.  [configure_instances] stops at the first process it cannot
    give a role to.  For a process outside the table it raises the
    unsupported-process [ValueError] without a request; when
    [create_role] fails it raises that failure and the role is not
    configured.  The roles created before, for the instances before and
    for the processes before on the same instance, are left in place, and
    the instances after are not configured. *)
Theorem configure_instances_stops (pu : PluginUtils) (ep : Endpoint)
    (cluster : option Cluster) (ibefore iafter : list Instance)
    (inst : Instance) (pbefore pafter : list string) (p : string)
    (s : session) :
  node_processes (node_group inst) = pbefore ++ p :: pafter →
  Forall (λ i, Forall (configurable pu ep cluster i)
                      (node_processes (node_group i))) ibefore →
  Forall (configurable pu ep cluster inst) pbefore →
  p ≠ "CLOUDERA_MANAGER" →
  let done := flat_map (instance_round pu cluster) ibefore
              ++ flat_map (role_round pu cluster inst) pbefore in
  (convert_role_showname pu p ∉ service_table.*1 →
   configure_instances pu ep (ibefore ++ inst :: iafter) cluster s
   = (noted s done, Raise (unsupported (convert_role_showname pu p))))
  ∧ (∀ e, convert_role_showname pu p ∈ service_table.*1 →
          created pu ep inst p = Raise e →
          configure_instances pu ep (ibefore ++ inst :: iafter) cluster s
          = (noted s (done ++ [create_call pu inst p]), Raise e)).
Proof.
  intros Hps Hibefore Hpbefore Hp done.
  assert (Hinsts : ∀ i, i ∈ ibefore →
            ∀ s', configure_instance pu ep i cluster s'
                  = (noted s' (instance_round pu cluster i), Ok tt)).
  { intros i Hi s'. rewrite Forall_forall in Hibefore.
    by apply configure_instance_configurable, Hibefore. }
  assert (Hprocs : ∀ q, q ∈ pbefore →
            ∀ s', add_role pu ep inst q cluster s'
                  = (noted s' (role_round pu cluster inst q), Ok tt)).
  { intros q Hq s'. rewrite Forall_forall in Hpbefore.
    by apply add_role_configurable, Hpbefore. }
  assert (Hinst : ∀ last e,
            (∀ s', add_role pu ep inst p cluster s'
                   = (noted s' last, Raise e)) →
            configure_instances pu ep (ibefore ++ inst :: iafter) cluster s
            = (noted s (done ++ last), Raise e)).
  { intros last e Hlast. unfold configure_instances.
    rewrite (for_each_rounds_raise (instance_round pu cluster) _
               ibefore iafter inst
               (flat_map (role_round pu cluster inst) pbefore ++ last) e
               Hinsts).
    - unfold done. by rewrite <- app_assoc.
    - intros s'. unfold configure_instance. rewrite Hps.
      by rewrite (for_each_rounds_raise (role_round pu cluster inst) _
                    pbefore pafter p last e Hprocs Hlast). }
  split.
  - intros Hout.
    rewrite (Hinst [] (unsupported (convert_role_showname pu p)));
      [by rewrite app_nil_r|].
    intros s'. rewrite add_role_untabled by done. by rewrite noted_nil.
  - intros e Hin Hcreate. apply Hinst.
    intros s'. rewrite add_role_tabled by done. by rewrite Hcreate.
Qed.

Definition inst_last : Instance :=
  mkInstance "worker-d" "worker-d.novalocal"
             (mkNodeGroup ["NODEMANAGER"] cluster0).

Lemma configure_instances_stops_witness :
  configure_instances pu0 ep0 ([inst_mgr] ++ inst_odd :: [inst_last])
                      None s0
  = (mkSession 0
       [ServiceCreateRole
          (get_service (get_cloudera_cluster cluster1) "hdfs01")
          "NAMENODE-manager" "NAMENODE" "manager.novalocal";
        RoleUpdateConfig
          (get_service (get_cloudera_cluster cluster1) "hdfs01")
          "NAMENODE-manager" None;
        ServiceCreateRole hdfs0 "DATANODE-worker-c" "DATANODE"
                          "worker-c.novalocal";
        RoleUpdateConfig hdfs0 "DATANODE-worker-c" None],
     Raise (unsupported "IMPALAD")).
Proof.
  assert (Hin : ∀ p, bool_decide (p ∈ service_table.*1) = true →
                     p ∈ service_table.*1)
    by (intros p; apply bool_decide_eq_true_1).
  assert (Hmgr : Forall (λ i, Forall (configurable pu0 ep0 None i)
                                     (node_processes (node_group i)))
                        [inst_mgr]).
  { constructor; [|constructor].
    constructor; [by left|]. constructor; [|constructor].
    right. split; [by apply Hin | by split]. }
  assert (Hodd : Forall (configurable pu0 ep0 None inst_odd) ["DATANODE"]).
  { constructor; [|constructor].
    right. split; [by apply Hin | by split]. }
  apply (proj1 (configure_instances_stops pu0 ep0 None
                  [inst_mgr] [inst_last] inst_odd
                  ["DATANODE"] ["NODEMANAGER"] "IMPALAD" s0 eq_refl
                  Hmgr Hodd ltac:(discriminate))).
  refine (bool_decide_eq_false_1 _ _); reflexivity.
Defined.

(** ** [create_mgmt_service] *)

(** The four monitoring roles, each on the manager's host. *)
Definition mgmt_roles (pu : PluginUtils) (cluster : Cluster)
  : list RoleInfo :=
  let manager := get_manager pu cluster in
  map (λ proc, mkRoleInfo (get_role_name pu manager proc) proc (fqdn manager))
      ["SERVICEMONITOR"; "HOSTMONITOR"; "EVENTSERVER"; "ALERTPUBLISHER"].

(** X21.  [create_mgmt_service] asks Cloudera Manager to create the
    management service with the four monitoring roles (service monitor,
    host monitor, event server, alert publisher), all on the manager's
    host, and then to start the roles of that host.  When the creation
    fails, the failure is raised and the roles are not started. *)
Theorem create_mgmt_service_outcome (pu : PluginUtils) (ep : Endpoint)
    (cluster : Cluster) (s : session) :
  let api := get_api_client cluster in
  let hostname := fqdn (get_manager pu cluster) in
  let create := CreateMgmtService api (mgmt_roles pu cluster) in
  (ep_create_mgmt_service ep api (mgmt_roles pu cluster) = Ok tt →
   create_mgmt_service pu ep cluster s
   = (noted s [create; HostsStartRoles api [hostname]],
      ep_hosts_start_roles ep api [hostname]))
  ∧ (∀ e, ep_create_mgmt_service ep api (mgmt_roles pu cluster) = Raise e →
          create_mgmt_service pu ep cluster s = (noted s [create], Raise e)).
Proof.
  intros api hostname create.
  unfold create, hostname, api, create_mgmt_service, mgmt_roles,
    add_role_info, bind, attempt, noted; simpl.
  split.
  - intros ->. by rewrite <- app_assoc.
  - by intros e ->.
Qed.

Lemma create_mgmt_service_outcome_witness :
  create_mgmt_service pu0 ep0 cluster0 s0
  = (mkSession 0
       [CreateMgmtService (get_api_client cluster0)
          [mkRoleInfo "SERVICEMONITOR-worker-a" "SERVICEMONITOR"
                      "worker-a.novalocal";
           mkRoleInfo "HOSTMONITOR-worker-a" "HOSTMONITOR"
                      "worker-a.novalocal";
           mkRoleInfo "EVENTSERVER-worker-a" "EVENTSERVER"
                      "worker-a.novalocal";
           mkRoleInfo "ALERTPUBLISHER-worker-a" "ALERTPUBLISHER"
                      "worker-a.novalocal"]],
     Raise (RemoteError "already exists")).
Proof.
  apply (proj2 (create_mgmt_service_outcome pu0 ep0 cluster0 s0)
           (RemoteError "already exists")).
  reflexivity.
Defined.

End ClouderaOpsProofs.


(** * Properties of the scheduler start *)

Module PeriodicSetupProofs.
Import Periodic PeriodicSetup.

(** The timer [setup] adds for [conf], with initial delay [d]. *)
Definition scheduler (conf : Conf) (d : option Z) : Timer :=
  mkTimer (make_periodic_tasks conf) d (periodic_interval_max conf).

(** X22.  [setup] adds no timer when [periodic_enable] is off.  When it
    is on, it adds one timer for the three tasks: without an initial
    delay when [periodic_fuzzy_delay] is 0, and with an initial delay
    between 0 and [periodic_fuzzy_delay] when that is positive.  With a
    negative [periodic_fuzzy_delay] the draw of the delay raises a
    [ValueError] and no timer is added. *)
Theorem setup_outcome (conf : Conf) (draw : Z) (tg : list Timer) :
  (periodic_enable conf = false → setup conf draw tg = (tg, Ok tt))
  ∧ (periodic_enable conf = true →
     (periodic_fuzzy_delay conf = 0%Z →
      setup conf draw tg = (tg ++ [scheduler conf None], Ok tt))
     ∧ ((0 < periodic_fuzzy_delay conf)%Z →
        ∃ d, (0 ≤ d ≤ periodic_fuzzy_delay conf)%Z
             ∧ setup conf draw tg = (tg ++ [scheduler conf (Some d)], Ok tt))
     ∧ ((periodic_fuzzy_delay conf < 0)%Z →
        ∃ msg, setup conf draw tg = (tg, Raise (ValueError msg)))).
Proof.
  unfold setup. split; [by intros ->|]. intros ->.
  split; [|split].
  - intros ->. reflexivity.
  - intros Hpos.
    rewrite (proj2 (Z.eqb_neq _ _)) by lia. simpl.
    unfold bind, lift_result, randint.
    rewrite (proj2 (Z.ltb_ge _ _)) by lia.
    exists (0 + draw `mod` (periodic_fuzzy_delay conf - 0 + 1))%Z.
    split; [|reflexivity].
    pose proof (Z.mod_pos_bound draw (periodic_fuzzy_delay conf - 0 + 1)).
    lia.
  - intros Hneg.
    rewrite (proj2 (Z.eqb_neq _ _)) by lia. simpl.
    unfold bind, lift_result, randint.
    rewrite (proj2 (Z.ltb_lt _ _)) by lia.
    by eexists.
Qed.

Lemma setup_outcome_witness :
  setup (mkConf true 0 60 30 false true) 17 []
  = ([mkTimer
        [mkPeriodicTask "update_job_statuses" 45 true;
         mkPeriodicTask "terminate_unneeded_clusters" 90 false;
         mkPeriodicTask "check_for_zombie_proxy_users" 300 false]
        None 60],
     Ok tt)
  ∧ ∃ msg, setup (mkConf true (-5) 60 30 false false) 17 []
           = ([], Raise (ValueError msg)).
Proof.
  split.
  - apply (proj1 (proj2 (setup_outcome (mkConf true 0 60 30 false true)
                           17 []) eq_refl)).
    reflexivity.
  - apply (proj2 (proj2 (proj2 (setup_outcome
                                  (mkConf true (-5) 60 30 false false)
                                  17 []) eq_refl))).
    simpl. lia.
Defined.

End PeriodicSetupProofs.
